(** * valmid: decode, validate, dispatch

    A shallow embedding of [valmid.go] (package [valmid]) and proofs of the
    properties its specification states.

    The package wraps an [http.Handler] with a handler that binds the request
    to a struct (through [httpin]), validates the struct (through
    [go-playground/validator]) and either calls the wrapped handler with the
    struct attached to the request context, or calls an error handler.

    Layout:
    - [Res], [Runtime], [Request]: the Go values the package manipulates;
    - [Httpin], [Validator], [Host]: the collaborators of the package, as
      interfaces (the two libraries, and the user code the package calls);
    - [State], [M]: the package-level variables and the execution monad;
    - the package's functions, under the names they have in the source;
    - the theorems. *)

From Stdlib Require Import ZArith Ascii String.
From stdpp Require Import base option strings list gmap.

Local Open Scope string_scope.
Local Open Scope list_scope.
Set Warnings "-register-all".

(** ** Outcomes of a Go call *)

(** A call returns, panics, or hits an unrecoverable runtime error (a
    goroutine blocked for ever on a lock, an unlock of an unlocked mutex). *)
Inductive Res (A : Type) : Type :=
| Val (a : A)
| Panic (msg : string)
| Fatal (msg : string).
Arguments Val {A} a.
Arguments Panic {A} msg.
Arguments Fatal {A} msg.

Definition is_Val {A} (r : Res A) : bool :=
  match r with Val _ => true | _ => false end.

(** ** Runtime values *)

(** [rtype] stands for the struct types a program declares (the type
    arguments [T] of [Middleware[T]] and [Get[T]]), [value] for struct
    values, [zero T] for [var zero T], and [error] for the values of the
    interface [error], with their method [Error()]. *)
Class Runtime := {
  rtype : Type;
  rtype_eq_dec :: EqDecision rtype;
  value : Type;
  zero : rtype → value;
  error : Type;
  Error : error → string;
}.

(** Keys of [context.WithValue].  [Input] is [httpin.Input], the key under
    which the decoded struct travels; the other keys belong to other code. *)
Inductive ctxKey : Type :=
| Input
| RequestValue
| ForeignKey (name : string).

#[global] Instance ctxKey_eq_dec : EqDecision ctxKey.
Proof. solve_decision. Defined.

Section Http.
Context `{Runtime}.

(** A value of type [any]: the nil interface, a pointer [*T] to a struct
    (the pointer itself may be nil), or a value of some other dynamic
    type. *)
Inductive any : Type :=
| untyped_nil
| pointer (T : rtype) (p : option value)
| foreign (tag : nat).

(** A [context.Context] is the chain of its [WithValue] frames, innermost
    first; [context.Background()] is the empty chain. *)
Definition context : Type := list (ctxKey * any).

Definition Background : context := [].

Definition WithValue (parent : context) (key : ctxKey) (val : any) : context :=
  (key, val) :: parent.

Fixpoint Value (c : context) (key : ctxKey) : any :=
  match c with
  | [] => untyped_nil
  | (k, v) :: parent => if decide (k = key) then v else Value parent key
  end.

(** The parts of an [*http.Request] that binding reads, and its context.
    The body is the buffered content of [r.Body]. *)
Record Request : Type := mkRequest {
  Method : string;
  PathValues : gmap string string;
  Query : gmap string (list string);
  Header : gmap string (list string);
  PostForm : gmap string (list string);
  Body : string;
  ctx : context;
}.

(** [r.Context()] *)
Definition Context (r : Request) : context := ctx r.

(** [r.WithContext(ctx)]: a shallow copy of [r] with its context changed. *)
Definition WithContext (r : Request) (c : context) : Request :=
  {| Method := Method r; PathValues := PathValues r; Query := Query r;
     Header := Header r; PostForm := PostForm r; Body := Body r;
     ctx := c |}.
End Http.

(** ** Collaborators *)

(** [httpin]: [New(t)] builds the decoder of a struct type from its [in]
    tags, or fails; [core.Decode(r)] returns a pointer to a new struct, or
    fails. *)
Class Httpin `{Runtime} := {
  Core : Type;
  New : rtype → Core + error;
  Decode : Core → Request → any + error;
}.

(** [go-playground/validator]: [validator.New()] and [v.Struct(s)], which
    returns nil ([None]) when [s] passes every rule. *)
Class Validator `{Runtime} := {
  Validate : Type;
  validator_New : Validate;
  Struct : Validate → any → option error;
}.

(** ** Package-level variables *)

(** Values of type [ErrorHandlerFunc]: nil, the function literal that
    initialises [defaultErrorHandler], or a closure of the calling program. *)
Inductive ErrorHandlerFunc (closure : Type) : Type :=
| nil_func
| http_error_400
| func_lit (f : closure).
Arguments nil_func {closure}.
Arguments http_error_400 {closure}.
Arguments func_lit {closure} f.

(** The two variables guarded by [mu].  [defaultValidator] is a pointer,
    [None] being nil. *)
Record Registry (closure validate : Type) : Type := mkRegistry {
  defaultErrorHandler : ErrorHandlerFunc closure;
  defaultValidator : option validate;
}.
Arguments mkRegistry {closure validate}.
Arguments defaultErrorHandler {closure validate}.
Arguments defaultValidator {closure validate}.

(** A [sync.RWMutex] as one goroutine sees it: free, held by [S n] readers,
    or held by a writer. *)
Inductive RWMutex : Type :=
| Unlocked
| RLocked (n : nat)
| WLocked.

(** The calling program: its response writers, the closures and handlers it
    passes to the package, and what running them does.  User code sees the
    package only through its exported functions, so it may replace the two
    registry variables and change its own world [Ext], nothing else. *)
Class Host `{Runtime} `{!Validator} := {
  ResponseWriter : Type;
  Ext : Type;
  closure : Type;
  handler : Type;
  http_Error : ResponseWriter → string → Z → Ext → Ext;
  call_closure : closure → ResponseWriter → Request → error →
                 Registry closure Validate * Ext →
                 Res unit * (Registry closure Validate * Ext);
  serve_handler : handler → ResponseWriter → Request →
                  Registry closure Validate * Ext →
                  Res unit * (Registry closure Validate * Ext);
}.

Definition StatusBadRequest : Z := 400.

Section Valmid.
Context `{Runtime} `{!Httpin} `{!Validator} `{!Host}.

(** An [http.Handler]: the nil interface or a handler of the program. *)
Definition Handler : Type := option handler.

(** The calls the package makes into user code, in order. *)
Inductive Call : Type :=
| CallNext (next : Handler) (w : ResponseWriter) (r : Request)
| CallErrorHandler (h : ErrorHandlerFunc closure) (w : ResponseWriter)
                   (r : Request) (err : error).

Record State : Type := mkState {
  registry : Registry closure Validate;
  mu : RWMutex;
  ext : Ext;
  calls : list Call;
}.

(** The state at program start (lines 21-27 of the source). *)
Definition init (e : Ext) : State :=
  {| registry := {| defaultErrorHandler := http_error_400;
                    defaultValidator := Some validator_New |};
     mu := Unlocked; ext := e; calls := [] |}.

(** *** The execution monad: state and abrupt termination *)

Definition M (A : Type) : Type := State → Res A * State.

Definition ret {A} (a : A) : M A := λ s, (Val a, s).

Definition bind {A B} (c : M A) (k : A → M B) : M B :=
  λ s, match c s with
       | (Val a, s') => k a s'
       | (Panic msg, s') => (Panic msg, s')
       | (Fatal msg, s') => (Fatal msg, s')
       end.

Definition panic {A} (msg : string) : M A := λ s, (Panic msg, s).
Definition fatal {A} (msg : string) : M A := λ s, (Fatal msg, s).
End Valmid.

Declare Scope go_scope.
Delimit Scope go_scope with go.
Notation "x <- c ;; k" := (bind c (λ x, k))
  (at level 100, c at next level, right associativity) : go_scope.
Notation "c ;; k" := (bind c (λ _, k))
  (at level 100, right associativity) : go_scope.
Local Open Scope go_scope.

Section Package.
Context `{Runtime} `{!Httpin} `{!Validator} `{!Host}.

(** *** [sync.RWMutex] *)

Definition set_mu (m : RWMutex) : M unit :=
  λ s, (Val tt, {| registry := registry s; mu := m; ext := ext s;
                   calls := calls s |}).

Definition Lock : M unit :=
  λ s, match mu s with
       | Unlocked => set_mu WLocked s
       | _ => fatal "all goroutines are asleep - deadlock!" s
       end.

Definition Unlock : M unit :=
  λ s, match mu s with
       | WLocked => set_mu Unlocked s
       | _ => fatal "sync: Unlock of unlocked RWMutex" s
       end.

Definition RLock : M unit :=
  λ s, match mu s with
       | Unlocked => set_mu (RLocked 0) s
       | RLocked n => set_mu (RLocked (S n)) s
       | WLocked => fatal "all goroutines are asleep - deadlock!" s
       end.

Definition RUnlock : M unit :=
  λ s, match mu s with
       | RLocked 0 => set_mu Unlocked s
       | RLocked (S n) => set_mu (RLocked n) s
       | _ => fatal "sync: RUnlock of unlocked RWMutex" s
       end.

(** *** The registry: [SetErrorHandler], [SetValidator] and the getters *)

Definition set_registry (g : Registry closure Validate) : M unit :=
  λ s, (Val tt, {| registry := g; mu := mu s; ext := ext s;
                   calls := calls s |}).

Definition get_registry : M (Registry closure Validate) :=
  λ s, (Val (registry s), s).

Definition SetErrorHandler (h : ErrorHandlerFunc closure) : M unit :=
  Lock ;;
  g <- get_registry ;;
  set_registry {| defaultErrorHandler := h;
                  defaultValidator := defaultValidator g |} ;;
  Unlock.

Definition SetValidator (v : option Validate) : M unit :=
  Lock ;;
  g <- get_registry ;;
  set_registry {| defaultErrorHandler := defaultErrorHandler g;
                  defaultValidator := v |} ;;
  Unlock.

Definition getErrorHandler : M (ErrorHandlerFunc closure) :=
  RLock ;;
  g <- get_registry ;;
  RUnlock ;;
  ret (defaultErrorHandler g).

Definition getValidator : M (option Validate) :=
  RLock ;;
  g <- get_registry ;;
  RUnlock ;;
  ret (defaultValidator g).

(** *** Options *)

Record options : Type := mkOptions {
  errorHandler : ErrorHandlerFunc closure;
}.

(** An [Option] is a function taking a pointer to [options]: nil, or a
    function that updates the struct it is given. *)
Definition Option : Type := option (options → options).

Definition WithErrorHandler (h : ErrorHandlerFunc closure) : Option :=
  Some (λ _ : options, {| errorHandler := h |}).

(** [for _, opt := range opts { opt(o) }] *)
Fixpoint apply_options (opts : list Option) (o : options) : M options :=
  match opts with
  | [] => ret o
  | None :: _ => panic "runtime error: invalid memory address or nil pointer dereference"
  | Some opt :: rest => apply_options rest (opt o)
  end.

(** *** Calls into user code *)

Definition log (c : Call) : M unit :=
  λ s, (Val tt, {| registry := registry s; mu := mu s; ext := ext s;
                   calls := calls s ++ [c] |}).

Definition run_user (f : Registry closure Validate * Ext →
                         Res unit * (Registry closure Validate * Ext))
  : M unit :=
  λ s, let '(res, (g, e)) := f (registry s, ext s) in
       (res, {| registry := g; mu := mu s; ext := e; calls := calls s |}).

(** [handler(w, r, err)] for a [handler] of type [ErrorHandlerFunc]. *)
Definition call_error_handler (h : ErrorHandlerFunc closure)
    (w : ResponseWriter) (r : Request) (err : error) : M unit :=
  log (CallErrorHandler h w r err) ;;
  match h with
  | nil_func =>
      panic "runtime error: invalid memory address or nil pointer dereference"
  | http_error_400 =>
      run_user (λ '(g, e), (Val tt, (g, http_Error w (Error err) StatusBadRequest e)))
  | func_lit f => run_user (call_closure f w r err)
  end.

(** [next.ServeHTTP(w, r)] *)
Definition ServeHTTP (next : Handler) (w : ResponseWriter) (r : Request)
  : M unit :=
  log (CallNext next w r) ;;
  match next with
  | None =>
      panic "runtime error: invalid memory address or nil pointer dereference"
  | Some h => run_user (serve_handler h w r)
  end.

(** *** [handleError] *)

Definition handleError (w : ResponseWriter) (r : Request) (o : options)
    (err : error) : M unit :=
  let handler := errorHandler o in
  handler <- match handler with
             | nil_func => getErrorHandler
             | _ => ret handler
             end ;;
  call_error_handler handler w r err.

(** *** [Middleware] *)

(** [v.Struct(input)]; a nil [v] is dereferenced inside [Struct]. *)
Definition call_Struct (v : option Validate) (input : any)
  : M (option error) :=
  match v with
  | None =>
      panic "runtime error: invalid memory address or nil pointer dereference"
  | Some v => ret (Struct v input)
  end.

(** The [http.HandlerFunc] that the middleware returns for [next]. *)
Definition serve (core : Core) (o : options) (next : Handler)
    (w : ResponseWriter) (r : Request) : M unit :=
  match Decode core r with
  | inr err => handleError w r o err
  | inl input =>
      v <- getValidator ;;
      verr <- call_Struct v input ;;
      match verr with
      | Some err => handleError w r o err
      | None =>
          let ctx := WithValue (Context r) Input input in
          ServeHTTP next w (WithContext r ctx)
      end
  end.

Definition Middleware (T : rtype) (opts : list Option)
  : M (Handler → ResponseWriter → Request → M unit) :=
  o <- apply_options opts {| errorHandler := nil_func |} ;;
  match New T with
  | inr err =>
      panic ("valmid: failed to create httpin core: " +:+ Error err)
  | inl core => ret (serve core o)
  end.

(** *** [Get] *)

Definition Get (T : rtype) (r : Request) : M value :=
  match Value (Context r) Input with
  | pointer T' p =>
      if decide (T' = T) then
        match p with
        | Some v => ret v
        | None =>
            panic "runtime error: invalid memory address or nil pointer dereference"
        end
      else ret (zero T)
  | _ => ret (zero T)
  end.
End Package.

(** * The collaborators, modelled from the specification

    [httpin] and [go-playground/validator] are not part of the package's
    source.  This part models what the specification says of them: the
    Field Source Resolver (4.1), the Input Assembler (4.2) and the
    Validation Engine (4.3), over an explicit description of the declared
    struct types. *)

(** ** Declarations (specification section 3) *)

(** Modelled from the spec: the source kinds of [httpin]'s declarations
    (the library is not in the package's source), as section 3 lists them;
    [Unrecognized] stands for any other word in a declaration. *)
Inductive SourceKind : Type :=
| PathParam
| QueryParam
| HeaderField
| FormField
| JSONBody
| Unrecognized (word : string).

Definition recognized (k : SourceKind) : bool :=
  match k with Unrecognized _ => false | _ => true end.

Definition is_JSONBody (k : SourceKind) : bool :=
  match k with JSONBody => true | _ => false end.

(** Modelled from the spec: what [httpin] reads in an [in] tag, the Source
    Declaration of section 3: the ordered candidates and the two optional
    flags. *)
Record SourceDecl : Type := mkSourceDecl {
  candidates : list (SourceKind * string);
  required : bool;
  default_literal : option string;
}.

(** Modelled from the spec: what the validator reads in a [validate] tag,
    the named rules of section 3: presence, numeric or length bounds, and a
    rule applied to each element of a sequence. *)
Inductive Rule : Type :=
| Required
| Min (n : Z)
| Max (n : Z)
| Gt (n : Z)
| Each (ru : Rule).

(** A declared field: its name, type, source declaration and rules. *)
Record FieldOf (ty : Type) : Type := mkField {
  fname : string;
  ftype : ty;
  fsource : SourceDecl;
  frules : list Rule;
}.
Arguments mkField {ty}.
Arguments fname {ty}.
Arguments ftype {ty}.
Arguments fsource {ty}.
Arguments frules {ty}.

(** Field types: the scalars and sequences the tests bind, and a pointer to
    a nested struct with its own declarations. *)
Inductive FieldType : Type :=
| TInt
| TString
| TStrings
| TPtr (fields : list (FieldOf FieldType)).

Definition FieldDecl : Type := FieldOf FieldType.

(** An Input Shape is the list of its declared fields, in order. *)
Definition Shape : Type := list FieldDecl.

(** ** Instances *)

Inductive FieldVal : Type :=
| VInt (z : Z)
| VString (s : string)
| VStrings (l : list string)
| VPtr (p : option (list (string * FieldVal))).

(** A struct value: its fields in declared order. *)
Definition Instance : Type := list (string * FieldVal).

Definition zero_val (ty : FieldType) : FieldVal :=
  match ty with
  | TInt => VInt 0
  | TString => VString ""
  | TStrings => VStrings []
  | TPtr _ => VPtr None
  end.

Definition zero_instance (sh : Shape) : Instance :=
  map (λ f, (fname f, zero_val (ftype f))) sh.

Fixpoint field (name : string) (inst : Instance) : option FieldVal :=
  match inst with
  | [] => None
  | (n, v) :: rest => if decide (n = name) then Some v else field name rest
  end.

(** ** Errors *)

Inductive Step : Type :=
| AtField (name : string)
| AtIndex (i : nat).

(** A violation: the path of the field and the rule it breaks. *)
Definition Violation : Type := list Step * Rule.

(** Modelled from the spec: the errors of [httpin] and of the validator,
    after the taxonomy of section 7. *)
Inductive Err : Type :=
| NotAStruct (T : string)
| UnrecognizedSource (fld word : string)
| MissingRequired (fld : string)
| MalformedBody (fld : string)
| ConversionFailed (fld : string) (raw : list string)
| InvalidValidation
| ValidationFailed (violations : list Violation).

Definition is_binding_error (e : Err) : bool :=
  match e with
  | MissingRequired _ | MalformedBody _ | ConversionFailed _ _ => true
  | _ => false
  end.

Definition is_validation_error (e : Err) : bool :=
  match e with ValidationFailed _ => true | _ => false end.

Definition Err_Error (e : Err) : string :=
  match e with
  | NotAStruct T => "not a struct type: " +:+ T
  | UnrecognizedSource fld word =>
      "field " +:+ fld +:+ ": unrecognized source " +:+ word
  | MissingRequired fld => "field " +:+ fld +:+ ": missing required field"
  | MalformedBody fld => "field " +:+ fld +:+ ": malformed body"
  | ConversionFailed fld raw =>
      "field " +:+ fld +:+ ": cannot convert " +:+ String.concat "," raw
  | InvalidValidation => "validator: invalid value"
  | ValidationFailed _ => "validation failed"
  end.

(** ** The program under the pipeline *)

(** The struct types a program declares, by name, and the JSON decoder it
    links (JSON deserialization is outside the specification's core). *)
Class Program := {
  types : gmap string Shape;
  json_Unmarshal : string → Shape → option Instance;
}.

#[global] Instance spec_runtime `{Program} : Runtime := {|
  rtype := string;
  value := Instance;
  zero T := match types !! T with
            | Some sh => zero_instance sh
            | None => []
            end;
  error := Err;
  Error := Err_Error;
|}.

(** ** Text to value *)

(** Conversion of a raw string to an integer: an optional minus sign and
    decimal digits (the specification leaves the conversion to any standard
    one). *)
Definition digit (a : Ascii.ascii) : option Z :=
  let n := Ascii.nat_of_ascii a in
  if Nat.leb 48 n && Nat.leb n 57 then Some (Z.of_nat (n - 48)) else None.

Fixpoint parse_digits (s : string) (acc : Z) : option Z :=
  match s with
  | EmptyString => Some acc
  | String a rest =>
      match digit a with
      | Some d => parse_digits rest (10 * acc + d)
      | None => None
      end
  end.

Definition parse_int (s : string) : option Z :=
  match s with
  | EmptyString => None
  | String "-" EmptyString => None
  | String "-" rest => Z.opp <$> parse_digits rest 0
  | _ => parse_digits s 0
  end.

Section SpecCollaborators.
Context `{Program}.

(** ** Field Source Resolver (specification 4.1) *)

(** The values a request holds under a key: at least one, or nothing. *)
Definition yield (vs : option (list string)) : option (list string) :=
  match vs with
  | Some (v :: rest) => Some (v :: rest)
  | _ => None
  end.

(** Modelled from the spec: [httpin]'s lookup of one candidate source in a
    request (4.1).  An empty string is a value like any other; a source the
    request does not carry yields nothing. *)
Definition lookup_source (r : Request) (c : SourceKind * string)
  : option (list string) :=
  match c.1 with
  | PathParam => (λ v, [v]) <$> PathValues r !! c.2
  | QueryParam => yield (Query r !! c.2)
  | HeaderField => yield (Header r !! c.2)
  | FormField => yield (PostForm r !! c.2)
  | JSONBody => None
  | Unrecognized _ => None
  end.

(** Modelled from the spec: [httpin]'s Field Source Resolver (4.1).  It
    tries the candidates in declared order and stops at the first that
    yields a value.  The result is the list of the candidates it consulted,
    and the raw value (or [None] for absent). *)
Fixpoint resolve (cands : list (SourceKind * string)) (r : Request)
  : list (SourceKind * string) * option (list string) :=
  match cands with
  | [] => ([], None)
  | c :: rest =>
      match lookup_source r c with
      | Some raw => ([c], Some raw)
      | None => let '(tried, res) := resolve rest r in (c :: tried, res)
      end
  end.

(** ** Input Assembler (specification 4.2) *)

(** Modelled from the spec: [httpin]'s conversion of a raw value to the
    declared type of the field (4.2, step 3). *)
Definition convert (fld : string) (ty : FieldType) (raw : list string)
  : FieldVal + Err :=
  match ty, raw with
  | TInt, v :: _ =>
      match parse_int v with
      | Some z => inl (VInt z)
      | None => inr (ConversionFailed fld raw)
      end
  | TString, v :: _ => inl (VString v)
  | TStrings, _ => inl (VStrings raw)
  | _, _ => inr (ConversionFailed fld raw)
  end.

Definition binds_body (f : FieldDecl) : bool :=
  existsb (λ c, is_JSONBody c.1) (candidates (fsource f)).

(** Modelled from the spec: [httpin]'s binding of one field (4.2, steps 1
    to 3).  When a field has no value, its default is tried before its
    required flag, in the order of step 2. *)
Definition assemble_field (f : FieldDecl) (r : Request) : FieldVal + Err :=
  if binds_body f then
    match ftype f with
    | TPtr sub =>
        match json_Unmarshal (Body r) sub with
        | Some inst => inl (VPtr (Some inst))
        | None => inr (MalformedBody (fname f))
        end
    | _ => inr (MalformedBody (fname f))
    end
  else
    match (resolve (candidates (fsource f)) r).2 with
    | Some raw => convert (fname f) (ftype f) raw
    | None =>
        match default_literal (fsource f) with
        | Some lit => convert (fname f) (ftype f) [lit]
        | None =>
            if required (fsource f) then inr (MissingRequired (fname f))
            else inl (zero_val (ftype f))
        end
    end.

(** Modelled from the spec: [httpin]'s Input Assembler (4.2), field by
    field in declared order, failing at the first Binding Error. *)
Fixpoint assemble (sh : Shape) (r : Request) : Instance + Err :=
  match sh with
  | [] => inl []
  | f :: rest =>
      match assemble_field f r with
      | inr e => inr e
      | inl v =>
          match assemble rest r with
          | inr e => inr e
          | inl inst => inl ((fname f, v) :: inst)
          end
      end
  end.

(** Modelled from the spec: [httpin.New], the construction of a shape's
    metadata (4.4), which rejects a declaration with an unrecognized source
    kind; and [core.Decode], which returns a pointer to the assembled
    instance. *)
Definition check_field (f : FieldDecl) : option Err :=
  match filter (λ c, recognized c.1 = false) (candidates (fsource f)) with
  | (Unrecognized word, _) :: _ => Some (UnrecognizedSource (fname f) word)
  | _ => None
  end.

Fixpoint check_shape (sh : Shape) : option Err :=
  match sh with
  | [] => None
  | f :: rest =>
      match check_field f with
      | Some e => Some e
      | None => check_shape rest
      end
  end.

Definition spec_New (T : string) : (string * Shape) + Err :=
  match types !! T with
  | None => inr (NotAStruct T)
  | Some sh =>
      match check_shape sh with
      | Some e => inr e
      | None => inl (T, sh)
      end
  end.

Definition spec_Decode (core : string * Shape) (r : Request) : any + Err :=
  match assemble core.2 r with
  | inl inst => inl (pointer core.1 (Some inst))
  | inr e => inr e
  end.

(** ** Validation Engine (specification 4.3) *)

(** What a bound rule measures: the number itself, or a length. *)
Definition magnitude (v : FieldVal) : option Z :=
  match v with
  | VInt z => Some z
  | VString s => Some (Z.of_nat (String.length s))
  | VStrings l => Some (Z.of_nat (length l))
  | VPtr _ => None
  end.

Definition present (v : FieldVal) : bool :=
  match v with
  | VInt z => negb (Z.eqb z 0)
  | VString s => negb (String.eqb s "")
  | VStrings l => negb (Nat.eqb (length l) 0)
  | VPtr p => match p with Some _ => true | None => false end
  end.

(** Modelled from the spec: the validator's reading of a rule on a value
    (4.3).  An element-wise rule says nothing of the sequence itself. *)
Definition holds (ru : Rule) (v : FieldVal) : bool :=
  match ru with
  | Required => present v
  | Min n => match magnitude v with Some m => Z.leb n m | None => true end
  | Max n => match magnitude v with Some m => Z.leb m n | None => true end
  | Gt n => match magnitude v with Some m => Z.ltb n m | None => true end
  | Each _ => true
  end.

(** Modelled from the spec: the validator's check of one rule on one value
    at path [p] (4.3); an element-wise rule is applied to each element in
    turn. *)
Fixpoint check (ru : Rule) (p : list Step) (v : FieldVal) : list Violation :=
  match ru with
  | Each ru' =>
      match v with
      | VStrings l =>
          mjoin (imap (λ i x, check ru' (p ++ [AtIndex i]) (VString x)) l)
      | _ => []
      end
  | _ => if holds ru v then [] else [(p, ru)]
  end.

(** The value of a declared field in an instance. *)
Definition value_of (f : FieldDecl) (inst : Instance) : FieldVal :=
  default (zero_val (ftype f)) (field (fname f) inst).

(** Modelled from the spec: the validator's [Struct], the Validation
    Engine of 4.3.  Every rule of every field is applied, nested structs
    are entered, and all violations are collected into one error. *)
Fixpoint validate_at (ty : FieldType) (p : list Step) (v : FieldVal)
  : list Violation :=
  match ty, v with
  | TPtr sub, VPtr (Some inst) =>
      sub ≫= λ f,
        let q := p ++ [AtField (fname f)] in
        let v' := value_of f inst in
        (frules f ≫= λ ru, check ru q v') ++ validate_at (ftype f) q v'
  | _, _ => []
  end.

Definition validate (sh : Shape) (inst : Instance) : list Violation :=
  validate_at (TPtr sh) [] (VPtr (Some inst)).

Definition spec_Struct (_ : unit) (input : any) : option Err :=
  match input with
  | pointer T (Some inst) =>
      match types !! (T : string) with
      | Some sh =>
          match validate sh inst with
          | [] => None
          | vs => Some (ValidationFailed vs)
          end
      | None => Some InvalidValidation
      end
  | _ => Some InvalidValidation
  end.

#[global] Instance spec_httpin : Httpin := {|
  Core := string * Shape;
  New := spec_New;
  Decode := spec_Decode;
|}.

#[global] Instance spec_validator : Validator := {|
  Validate := unit;
  validator_New := tt;
  Struct := spec_Struct;
|}.

(** ** What the specification calls a violated rule *)

(** [breaks ru v q ru']: rule [ru], declared on value [v], is violated at
    the relative path [q] by [ru'] (itself, or the rule it applies to an
    element). *)
Inductive breaks : Rule → FieldVal → list Step → Rule → Prop :=
| breaks_here ru v :
    (∀ ru', ru ≠ Each ru') →
    holds ru v = false →
    breaks ru v [] ru
| breaks_element ru l i x q ru' :
    l !! i = Some x →
    breaks ru (VString x) q ru' →
    breaks (Each ru) (VStrings l) (AtIndex i :: q) ru'.

(** [violated sh inst q ru]: in instance [inst] of shape [sh], the rule [ru]
    is violated at path [q]: on a field, or inside a nested struct. *)
Inductive violated : Shape → Instance → list Step → Rule → Prop :=
| violated_field sh inst f ru q ru' :
    f ∈ sh →
    ru ∈ frules f →
    breaks ru (value_of f inst) q ru' →
    violated sh inst (AtField (fname f) :: q) ru'
| violated_nested sh inst f sub inst' q ru :
    f ∈ sh →
    ftype f = TPtr sub →
    value_of f inst = VPtr (Some inst') →
    violated sub inst' q ru →
    violated sh inst (AtField (fname f) :: q) ru.
End SpecCollaborators.

(** * Vocabulary of the specification *)

Section Vocabulary.
Context `{Runtime} `{!Httpin} `{!Validator} `{!Host}.

(** The active error handler of a pipeline built with options [o], when the
    registry holds [g]: the override if there is one, the registry's
    handler otherwise. *)
Definition active_handler (o : options) (g : Registry closure Validate)
  : ErrorHandlerFunc closure :=
  match errorHandler o with
  | nil_func => defaultErrorHandler g
  | h => h
  end.

(** Request [r] fails in state [s] with [err]: a Binding Error when
    [Decode] fails, a Validation Error when [Decode] succeeds and the current
    validator rejects its result. *)
Inductive fails (core : Core) (s : State) (r : Request) : error → Prop :=
| binding_error err :
    Decode core r = inr err →
    fails core s r err
| validation_error input v err :
    Decode core r = inl input →
    defaultValidator (registry s) = Some v →
    Struct v input = Some err →
    fails core s r err.

(** Request [r] passes in state [s] with [input]: [Decode] returns [input]
    and the current validator accepts it. *)
Inductive passes (core : Core) (s : State) (r : Request) : any → Prop :=
| passes_intro input v :
    Decode core r = inl input →
    defaultValidator (registry s) = Some v →
    Struct v input = None →
    passes core s r input.

(** The request handed to the wrapped handler. *)
Definition attach (r : Request) (input : any) : Request :=
  WithContext r (WithValue (Context r) Input input).
End Vocabulary.

(** * The program of the package's tests

    The struct types of [valmid_test.go] and of the package documentation,
    the requests its tests send, and a host with the two handlers the tests
    install. *)

Module Tests.

Definition from (cands : list (SourceKind * string)) : SourceDecl :=
  {| candidates := cands; required := false; default_literal := None |}.

(** [type Body struct { Name string `json:"name" validate:"required,min=3"` }] *)
Definition Body_type : Shape :=
  [ mkField "Name" TString (from []) [Required; Min 3] ].

(** [type Input struct], five fields. *)
Definition Input_type : Shape :=
  [ mkField "ID" TInt (from [(PathParam, "id")]) [Gt 0];
    mkField "Page" TInt
      {| candidates := [(QueryParam, "page")]; required := false;
         default_literal := Some "1" |} [];
    mkField "Token" TString (from [(HeaderField, "X-Token")]) [Required];
    mkField "Body" (TPtr Body_type) (from [(JSONBody, "json")]) [];
    mkField "Field" TString (from [(FormField, "field")]) [] ].

(** [type BadInput struct { Field string `in:"unknown=bad"` }] *)
Definition BadInput_type : Shape :=
  [ mkField "Field" TString (from [(Unrecognized "unknown", "bad")]) [] ].

(** [type MultiQueryInput struct], one sequence field. *)
Definition MultiQueryInput_type : Shape :=
  [ mkField "Tags" TStrings (from [(QueryParam, "tag")])
      [Required; Min 1; Each Required] ].

(** A field with a fallback source, [in:"query=token;header=X-Token"]. *)
Definition TokenInput_type : Shape :=
  [ mkField "Token" TString
      (from [(QueryParam, "token"); (HeaderField, "X-Token")]) [] ].

Definition dq : string := String (Ascii.ascii_of_nat 34) EmptyString.

(** The JSON text of an object with the one key [name]. *)
Definition json_name (name : string) : string :=
  "{" +:+ dq +:+ "name" +:+ dq +:+ ":" +:+ dq +:+ name +:+ dq +:+ "}".

(** A decoder for the bodies the tests send: an object with the one key
    [name]; anything else is malformed. *)
Definition Unmarshal (body : string) (sh : Shape) : option Instance :=
  let pre := "{" +:+ dq +:+ "name" +:+ dq +:+ ":" +:+ dq in
  let suf := dq +:+ "}" in
  if String.prefix pre body then
    let rest := String.substring (String.length pre)
                  (String.length body - String.length pre) body in
    let name := String.substring 0
                  (String.length rest - String.length suf) rest in
    if String.eqb rest (name +:+ suf) then Some [("Name", VString name)]
    else None
  else None.

Definition program : Program := {|
  types := list_to_map [("Body", Body_type); ("Input", Input_type);
                        ("BadInput", BadInput_type);
                        ("MultiQueryInput", MultiQueryInput_type);
                        ("TokenInput", TokenInput_type)];
  json_Unmarshal := Unmarshal;
|}.

#[local] Existing Instance program.

(** The handlers of the tests.  [teapot] answers 418; [ok] is a wrapped
    handler that answers 200.  The host's world is the list of the
    responses written so far. *)
Inductive test_closure : Type := teapot.
Inductive test_handler : Type := ok.

Definition host : Host := {|
  ResponseWriter := unit;
  Ext := list (Z * string);
  closure := test_closure;
  handler := test_handler;
  http_Error := λ _ msg code e, e ++ [(code, msg)];
  call_closure := λ _ _ _ _ '(g, e), (Val tt, (g, e ++ [(418%Z, "")]));
  serve_handler := λ _ _ _ '(g, e), (Val tt, (g, e ++ [(200%Z, "")]));
|}.

#[local] Existing Instance host.

Definition start : State := init [].

(** [POST /users/42?page=2], header [X-Token: secret], body
    [{"name":"John"}]. *)
Definition req_john : Request :=
  {| Method := "POST";
     PathValues := {[ "id" := "42" ]};
     Query := {[ "page" := ["2"] ]};
     Header := {[ "X-Token" := ["secret"] ]};
     PostForm := ∅;
     Body := json_name "John";
     ctx := Background |}.

(** [POST /], header [X-Token: secret], body [not json]. *)
Definition req_not_json : Request :=
  {| Method := "POST"; PathValues := ∅; Query := ∅;
     Header := {[ "X-Token" := ["secret"] ]}; PostForm := ∅;
     Body := "not json"; ctx := Background |}.

(** [POST /], header [X-Token: secret], body [{"name":"Jo"}]. *)
Definition req_jo : Request :=
  {| Method := "POST"; PathValues := ∅; Query := ∅;
     Header := {[ "X-Token" := ["secret"] ]}; PostForm := ∅;
     Body := json_name "Jo"; ctx := Background |}.

(** [GET /items?tag=a&tag=b&tag=c] *)
Definition req_tags : Request :=
  {| Method := "GET"; PathValues := ∅;
     Query := {[ "tag" := ["a"; "b"; "c"] ]};
     Header := ∅; PostForm := ∅; Body := ""; ctx := Background |}.

(** [GET /?token=], header [X-Token: secret]: the query parameter is
    present and empty. *)
Definition req_empty_token : Request :=
  {| Method := "GET"; PathValues := ∅;
     Query := {[ "token" := [""] ]};
     Header := {[ "X-Token" := ["secret"] ]};
     PostForm := ∅; Body := ""; ctx := Background |}.

(** [GET /], no query, header [X-Token: secret]. *)
Definition req_header_token : Request :=
  {| Method := "GET"; PathValues := ∅; Query := ∅;
     Header := {[ "X-Token" := ["secret"] ]};
     PostForm := ∅; Body := ""; ctx := Background |}.

(** The instance the first test expects. *)
Definition john : Instance :=
  [ ("ID", VInt 42); ("Page", VInt 2); ("Token", VString "secret");
    ("Body", VPtr (Some [("Name", VString "John")]));
    ("Field", VString "") ].

Definition jo : Instance :=
  [ ("ID", VInt 0); ("Page", VInt 1); ("Token", VString "secret");
    ("Body", VPtr (Some [("Name", VString "Jo")]));
    ("Field", VString "") ].

End Tests.

(** * Properties of the package *)

Section PackageFacts.
Context `{Runtime} `{!Httpin} `{!Validator} `{!Host}.

Implicit Types (s : State) (r : Request) (w : ResponseWriter)
  (next : Handler) (o : options) (T : rtype).

(** ** The registry functions, run from a state where [mu] is free *)

Lemma getErrorHandler_run s :
  mu s = Unlocked →
  getErrorHandler s = (Val (defaultErrorHandler (registry s)), s).
Proof.
  intros Hmu. destruct s as [g m e c]; simpl in Hmu; subst m.
  reflexivity.
Qed.

Lemma getValidator_run s :
  mu s = Unlocked →
  getValidator s = (Val (defaultValidator (registry s)), s).
Proof.
  intros Hmu. destruct s as [g m e c]; simpl in Hmu; subst m.
  reflexivity.
Qed.

Lemma SetErrorHandler_run s h :
  mu s = Unlocked →
  SetErrorHandler h s =
    (Val tt, {| registry := {| defaultErrorHandler := h;
                               defaultValidator := defaultValidator (registry s) |};
                mu := Unlocked; ext := ext s; calls := calls s |}).
Proof.
  intros Hmu. destruct s as [g m e c]; simpl in Hmu; subst m.
  reflexivity.
Qed.

Lemma SetValidator_run s v :
  mu s = Unlocked →
  SetValidator v s =
    (Val tt, {| registry := {| defaultErrorHandler := defaultErrorHandler (registry s);
                               defaultValidator := v |};
                mu := Unlocked; ext := ext s; calls := calls s |}).
Proof.
  intros Hmu. destruct s as [g m e c]; simpl in Hmu; subst m.
  reflexivity.
Qed.

(** ** Calls into user code leave one entry in the log *)

Lemma run_user_calls f s : calls (run_user f s).2 = calls s.
Proof.
  unfold run_user. destruct (f (registry s, ext s)) as [res [g e]].
  reflexivity.
Qed.

Lemma run_user_mu f s : mu (run_user f s).2 = mu s.
Proof.
  unfold run_user. destruct (f (registry s, ext s)) as [res [g e]].
  reflexivity.
Qed.

Lemma call_error_handler_calls h w r err s :
  calls (call_error_handler h w r err s).2
  = calls s ++ [CallErrorHandler h w r err].
Proof.
  unfold call_error_handler, bind, log; simpl.
  destruct h as [| | f]; simpl; [reflexivity | reflexivity |].
  apply run_user_calls.
Qed.

Lemma ServeHTTP_calls next w r s :
  calls (ServeHTTP next w r s).2 = calls s ++ [CallNext next w r].
Proof.
  unfold ServeHTTP, bind, log; simpl.
  destruct next as [h|]; simpl; [|reflexivity].
  apply run_user_calls.
Qed.

(** ** [handleError] calls the active handler *)

Lemma handleError_run w r o err s :
  mu s = Unlocked ∨ errorHandler o ≠ nil_func →
  handleError w r o err s
  = call_error_handler (active_handler o (registry s)) w r err s.
Proof.
  intros Hfree. unfold handleError, active_handler.
  destruct (errorHandler o) eqn:Ho.
  - destruct Hfree as [Hmu | Hne]; [| congruence].
    unfold bind. rewrite (getErrorHandler_run s Hmu). reflexivity.
  - reflexivity.
  - reflexivity.
Qed.

Lemma call_error_handler_mu h w r err s :
  mu (call_error_handler h w r err s).2 = mu s.
Proof.
  unfold call_error_handler, bind, log; simpl.
  destruct h as [| | f]; simpl; [reflexivity | reflexivity |].
  by rewrite run_user_mu.
Qed.

Lemma ServeHTTP_mu next w r s : mu (ServeHTTP next w r s).2 = mu s.
Proof.
  unfold ServeHTTP, bind, log; simpl.
  destruct next as [h|]; simpl; [| reflexivity].
  by rewrite run_user_mu.
Qed.

(** A write is what the next read returns. *)
Lemma SetErrorHandler_then_get h s :
  mu s = Unlocked →
  ∃ s', (SetErrorHandler h ;; getErrorHandler) s = (Val h, s')
        ∧ mu s' = Unlocked ∧ defaultErrorHandler (registry s') = h.
Proof.
  intros Hmu. unfold bind. rewrite (SetErrorHandler_run s h Hmu).
  rewrite getErrorHandler_run by reflexivity. simpl. eauto.
Qed.

Lemma SetValidator_then_get v s :
  mu s = Unlocked →
  ∃ s', (SetValidator v ;; getValidator) s = (Val v, s')
        ∧ mu s' = Unlocked ∧ defaultValidator (registry s') = v.
Proof.
  intros Hmu. unfold bind. rewrite (SetValidator_run s v Hmu).
  rewrite getValidator_run by reflexivity. simpl. eauto.
Qed.

(** ** Construction *)

Lemma apply_options_state opts o s : (apply_options opts o s).2 = s.
Proof.
  revert o. induction opts as [| [f|] opts IH]; intros o; simpl; auto.
Qed.

Lemma apply_options_result opts o s :
  (∃ o', apply_options opts o s = (Val o', s))
  ∨ (∃ msg, apply_options opts o s = (Panic msg, s)).
Proof.
  revert o. induction opts as [| [f|] opts IH]; intros o; simpl.
  - left. eauto.
  - apply IH.
  - right. eauto.
Qed.

Lemma apply_options_app_override opts o h s :
  Forall (λ opt : Option, opt ≠ None) opts →
  apply_options (opts ++ [WithErrorHandler h]) o s
  = (Val {| errorHandler := h |}, s).
Proof.
  intros Hall. revert o.
  induction Hall as [| [f|] opts Hx Hall IH]; intros o; simpl.
  - reflexivity.
  - apply IH.
  - congruence.
Qed.

Lemma Middleware_inv T opts s0 mw s1 :
  Middleware T opts s0 = (Val mw, s1) →
  ∃ core o, New T = inl core
            ∧ apply_options opts {| errorHandler := nil_func |} s0 = (Val o, s0)
            ∧ mw = serve core o ∧ s1 = s0.
Proof.
  unfold Middleware, bind. intros Hrun.
  pose proof (apply_options_state opts {| errorHandler := nil_func |} s0) as Hst.
  destruct (apply_options opts _ s0) as [[o | msg | msg] s'];
    simpl in Hst; subst s'; try discriminate.
  destruct (New T) as [core | err]; [| discriminate].
  inversion Hrun; subst. exists core, o. repeat split.
Qed.

(** ** One request through the pipeline *)

Lemma serve_fails core o next w r s err :
  mu s = Unlocked →
  fails core s r err →
  serve core o next w r s
  = call_error_handler (active_handler o (registry s)) w r err s.
Proof.
  intros Hmu Hfail. unfold serve.
  destruct Hfail as [err HD | input v err HD Hv HS]; rewrite HD.
  - apply handleError_run. auto.
  - unfold bind. rewrite (getValidator_run s Hmu), Hv. simpl. rewrite HS.
    apply handleError_run. auto.
Qed.

Lemma serve_passes core o next w r s input :
  mu s = Unlocked →
  passes core s r input →
  serve core o next w r s = ServeHTTP next w (attach r input) s.
Proof.
  intros Hmu [input' v HD Hv HS]. unfold serve. rewrite HD.
  unfold bind. rewrite (getValidator_run s Hmu), Hv. simpl. rewrite HS.
  reflexivity.
Qed.

(** However a request ends, the handler leaves [mu] free: the lock is
    never held while user code runs. *)
Lemma serve_releases_lock core o next w r s :
  mu s = Unlocked → mu (serve core o next w r s).2 = Unlocked.
Proof.
  intros Hmu. unfold serve.
  destruct (Decode core r) as [input | err].
  - unfold bind. rewrite (getValidator_run s Hmu).
    destruct (defaultValidator (registry s)) as [v |]; simpl; [| exact Hmu].
    destruct (Struct v input) as [err |].
    + rewrite handleError_run by auto. by rewrite call_error_handler_mu.
    + by rewrite ServeHTTP_mu.
  - rewrite handleError_run by auto. by rewrite call_error_handler_mu.
Qed.

(** [Get] reads: it leaves the state as it is, and its result does not
    depend on the state. *)
Lemma Get_reads_only T r s s' :
  (Get T r s).2 = s ∧ (Get T r s).1 = (Get T r s').1.
Proof.
  unfold Get. destruct (Value (Context r) Input) as [| T' [v |] | n];
    try case_decide; done.
Qed.

Lemma Middleware_serve T opts s0 mw s1 core o :
  Middleware T opts s0 = (Val mw, s1) →
  New T = inl core →
  apply_options opts {| errorHandler := nil_func |} s0 = (Val o, s0) →
  mw = serve core o.
Proof.
  intros Hmw Hnew Hopts.
  destruct (Middleware_inv _ _ _ _ _ Hmw) as (core2 & o2 & Hnew2 & Hopts2 & Heq & _).
  congruence.
Qed.

(** ** Reading the context *)

Lemma Value_attach r input : Value (Context (attach r input)) Input = input.
Proof. reflexivity. Qed.

Lemma Get_attached T r v s :
  Get T (attach r (pointer T (Some v))) s = (Val v, s).
Proof. unfold Get. rewrite Value_attach. by case_decide. Qed.

Lemma Get_other_shape T S p r s :
  S ≠ T → Get T (attach r (pointer S p)) s = (Val (zero T), s).
Proof. intros Hne. unfold Get. rewrite Value_attach. by case_decide. Qed.

Lemma Get_nothing_attached T r s :
  Value (Context r) Input = untyped_nil → Get T r s = (Val (zero T), s).
Proof. intros Hnil. unfold Get. by rewrite Hnil. Qed.

(** The registry's error handler plays no part in what fails or passes. *)
Lemma fails_SetErrorHandler core s r err h :
  mu s = Unlocked →
  fails core s r err → fails core (SetErrorHandler h s).2 r err.
Proof.
  intros Hmu Hfail. rewrite (SetErrorHandler_run s h Hmu). simpl.
  destruct Hfail as [err HD | input v err HD Hv HS].
  - by apply binding_error.
  - by eapply validation_error.
Qed.
End PackageFacts.

(** * The pipeline, for any binder, validator and host *)

Section Pipeline.
Context `{Runtime} `{!Httpin} `{!Validator} `{!Host}.

Implicit Types (s : State) (r : Request) (w : ResponseWriter)
  (next : Handler) (o : options) (T : rtype).

(** C1. When the request binds (Decode returns a pointer to an instance [v]
    of [T]) and the current validator accepts it, the middleware does
    exactly one thing, in the state it was called in: it calls the wrapped
    handler on the request with the instance attached; and [Get[T]] on that
    request returns [v], the instance as it was decoded. *)
Theorem middleware_accept_dispatches T opts s0 mw s1 core next w r s v vd :
  Middleware T opts s0 = (Val mw, s1) →
  New T = inl core →
  mu s = Unlocked →
  Decode core r = inl (pointer T (Some v)) →
  defaultValidator (registry s) = Some vd →
  Struct vd (pointer T (Some v)) = None →
  let r' := attach r (pointer T (Some v)) in
  mw next w r s = ServeHTTP next w r' s
  ∧ calls (mw next w r s).2 = calls s ++ [CallNext next w r']
  ∧ ∀ s', Get T r' s' = (Val v, s').
Proof.
  intros Hmw Hnew Hmu HD Hv HS r'.
  destruct (Middleware_inv _ _ _ _ _ Hmw) as (core2 & o & Hnew2 & _ & Heq & _).
  assert (core2 = core) by congruence. subst core2 mw.
  assert (Hrun : serve core o next w r s = ServeHTTP next w r' s).
  { apply serve_passes; [done |]. by eapply passes_intro. }
  split; [exact Hrun |]. split.
  - rewrite Hrun. apply ServeHTTP_calls.
  - intros s'. apply Get_attached.
Qed.

(** C2. When the request fails (Decode returns a Binding Error, or the
    validator returns a Validation Error for what Decode returned), the
    middleware does exactly one thing: it calls the active error handler
    with the original request and that error.  The log of calls grows by
    this one entry, so the wrapped handler is not called. *)
Theorem middleware_reject_calls_error_handler
    T opts s0 mw s1 core o next w r s err :
  Middleware T opts s0 = (Val mw, s1) →
  New T = inl core →
  apply_options opts {| errorHandler := nil_func |} s0 = (Val o, s0) →
  mu s = Unlocked →
  fails core s r err →
  let h := active_handler o (registry s) in
  mw next w r s = call_error_handler h w r err s
  ∧ calls (mw next w r s).2 = calls s ++ [CallErrorHandler h w r err].
Proof.
  intros Hmw Hnew Hopts Hmu Hfail h.
  rewrite (Middleware_serve _ _ _ _ _ _ _ Hmw Hnew Hopts).
  assert (Hrun : serve core o next w r s = call_error_handler h w r err s)
    by by apply serve_fails.
  split; [exact Hrun |].
  rewrite Hrun. apply call_error_handler_calls.
Qed.

(** C3. On a failing request the handler called is the override left in
    [options] by the construction, when it is not nil, whatever the
    registry holds; without an override it is the handler the registry
    holds when the request fails, so that a [SetErrorHandler] run after the
    construction decides which handler the next failure calls. *)
Theorem error_handler_resolved_per_failure
    T opts s0 mw s1 core o next w r s err h' :
  Middleware T opts s0 = (Val mw, s1) →
  New T = inl core →
  apply_options opts {| errorHandler := nil_func |} s0 = (Val o, s0) →
  mu s = Unlocked →
  fails core s r err →
  (errorHandler o ≠ nil_func →
     calls (mw next w r s).2
     = calls s ++ [CallErrorHandler (errorHandler o) w r err]
     ∧ calls ((SetErrorHandler h' ;; mw next w r) s).2
       = calls s ++ [CallErrorHandler (errorHandler o) w r err])
  ∧ (errorHandler o = nil_func →
     calls (mw next w r s).2
     = calls s ++ [CallErrorHandler (defaultErrorHandler (registry s)) w r err]
     ∧ calls ((SetErrorHandler h' ;; mw next w r) s).2
       = calls s ++ [CallErrorHandler h' w r err]).
Proof.
  intros Hmw Hnew Hopts Hmu Hfail.
  rewrite (Middleware_serve _ _ _ _ _ _ _ Hmw Hnew Hopts).
  pose proof (fails_SetErrorHandler core s r err h' Hmu Hfail) as Hfail'.
  assert (Hafter : ∀ s2, SetErrorHandler h' s = (Val tt, s2) →
            mu s2 = Unlocked ∧ calls s2 = calls s
            ∧ defaultErrorHandler (registry s2) = h').
  { intros s2. rewrite (SetErrorHandler_run s h' Hmu).
    intros [= <-]. done. }
  assert (Hseq : ∀ s2, SetErrorHandler h' s = (Val tt, s2) →
            (SetErrorHandler h' ;; serve core o next w r) s
            = serve core o next w r s2).
  { intros s2 Hs2. unfold bind. by rewrite Hs2. }
  pose proof (SetErrorHandler_run s h' Hmu) as Hset.
  rewrite Hset in Hfail'. simpl in Hfail'.
  specialize (Hafter _ Hset) as (Hmu2 & Hcalls2 & Hh2).
  specialize (Hseq _ Hset).
  split; intros Ho.
  - split.
    + rewrite (serve_fails _ _ _ _ _ _ _ Hmu Hfail), call_error_handler_calls.
      unfold active_handler. by destruct (errorHandler o).
    + rewrite Hseq, (serve_fails _ _ _ _ _ _ _ Hmu2 Hfail'),
        call_error_handler_calls, Hcalls2.
      unfold active_handler. by destruct (errorHandler o).
  - split.
    + rewrite (serve_fails _ _ _ _ _ _ _ Hmu Hfail), call_error_handler_calls.
      unfold active_handler. by rewrite Ho.
    + rewrite Hseq, (serve_fails _ _ _ _ _ _ _ Hmu2 Hfail'),
        call_error_handler_calls, Hcalls2.
      unfold active_handler. by rewrite Ho, Hh2.
Qed.

(** C6. When [httpin.New] rejects the declarations of [T], [Middleware]
    panics at construction: it calls nothing and leaves the state as it
    was, and it returns no handler, so that no request can meet the failure
    later.  When no option is nil the panic carries the message of the
    source. *)
Theorem middleware_panics_at_construction T opts s err :
  New T = inr err →
  (∃ msg, Middleware T opts s = (Panic msg, s))
  ∧ (∀ mw s', Middleware T opts s ≠ (Val mw, s'))
  ∧ (Forall (λ opt : Option, opt ≠ None) opts →
     Middleware T opts s
     = (Panic ("valmid: failed to create httpin core: " +:+ Error err), s)).
Proof.
  intros Hnew.
  assert (Hpanic : ∃ msg, Middleware T opts s = (Panic msg, s)).
  { unfold Middleware, bind.
    destruct (apply_options_result opts {| errorHandler := nil_func |} s)
      as [[o Ho] | [msg Hmsg]].
    - rewrite Ho, Hnew. eauto.
    - rewrite Hmsg. eauto. }
  split; [exact Hpanic |]. split.
  - intros mw s' Hmw. destruct Hpanic as [msg Hmsg]. congruence.
  - unfold Middleware, bind. intros Hall.
    assert (Hok : ∃ o, apply_options opts {| errorHandler := nil_func |} s
                       = (Val o, s)).
    { clear Hpanic. generalize {| errorHandler := nil_func |}.
      induction Hall as [| [f|] opts' Hx Hall IH]; intros o; simpl;
        [eauto | apply IH | congruence]. }
    destruct Hok as [o Hok]. rewrite Hok, Hnew. reflexivity.
Qed.

(** C7. [Get[T]] returns the zero value of [T], and neither panics nor
    changes the state, on a request that carries nothing under
    [httpin.Input] (no pipeline ran) and on a request to which a pipeline
    attached an instance of another shape. *)
Theorem Get_zero_without_pipeline T r s :
  Value (Context r) Input = untyped_nil
  ∨ (∃ S p r0, S ≠ T ∧ r = attach r0 (pointer S p)) →
  Get T r s = (Val (zero T), s).
Proof.
  intros [Hnil | (S & p & r0 & Hne & ->)].
  - by apply Get_nothing_attached.
  - by apply Get_other_shape.
Qed.

(** C8. On the request the middleware hands to the wrapped handler, two
    calls of [Get[T]] in a row return the same instance, the decoded one,
    and leave the state as it was. *)
Theorem Get_twice_same T opts s0 mw s1 core next w r s v vd :
  Middleware T opts s0 = (Val mw, s1) →
  New T = inl core →
  mu s = Unlocked →
  Decode core r = inl (pointer T (Some v)) →
  defaultValidator (registry s) = Some vd →
  Struct vd (pointer T (Some v)) = None →
  ∃ r', calls (mw next w r s).2 = calls s ++ [CallNext next w r']
        ∧ ∀ s', (x <- Get T r' ;; y <- Get T r' ;; ret (x, y)) s'
                = (Val (v, v), s').
Proof.
  intros Hmw Hnew Hmu HD Hv HS.
  destruct (Middleware_inv _ _ _ _ _ Hmw) as (core2 & o & Hnew2 & _ & Heq & _).
  assert (core2 = core) by congruence. subst core2 mw.
  exists (attach r (pointer T (Some v))). split.
  - rewrite (serve_passes core o next w r s (pointer T (Some v))).
    + apply ServeHTTP_calls.
    + done.
    + by eapply passes_intro.
  - intros s'. unfold bind. rewrite !Get_attached. reflexivity.
Qed.

(** C10. On a failing request the error handler receives the request as
    it came: its context is the one the middleware was given, nothing is
    attached.  So [Get[T]] on it returns what it returned before the
    pipeline ran, the zero value when the request carried nothing under
    [httpin.Input]. *)
Theorem failure_attaches_nothing
    T opts s0 mw s1 core o next w r s err :
  Middleware T opts s0 = (Val mw, s1) →
  New T = inl core →
  apply_options opts {| errorHandler := nil_func |} s0 = (Val o, s0) →
  mu s = Unlocked →
  fails core s r err →
  ∃ h r', calls (mw next w r s).2 = calls s ++ [CallErrorHandler h w r' err]
          ∧ Context r' = Context r
          ∧ (∀ s', Get T r' s' = Get T r s')
          ∧ (Value (Context r) Input = untyped_nil →
             ∀ s', Get T r' s' = (Val (zero T), s')).
Proof.
  intros Hmw Hnew Hopts Hmu Hfail.
  rewrite (Middleware_serve _ _ _ _ _ _ _ Hmw Hnew Hopts).
  exists (active_handler o (registry s)), r.
  rewrite (serve_fails _ _ _ _ _ _ _ Hmu Hfail), call_error_handler_calls.
  repeat split; auto.
  intros Hnil s'. by apply Get_nothing_attached.
Qed.
End Pipeline.

(** * The collaborators of the specification *)

Section Resolver.
Context `{Program}.

Implicit Types (r : Request) (c : SourceKind * string)
  (cands pre post tried : list (SourceKind * string)).

Lemma resolve_skips_absent pre cands r :
  Forall (λ c, lookup_source r c = None) pre →
  resolve (pre ++ cands) r
  = (pre ++ (resolve cands r).1, (resolve cands r).2).
Proof.
  induction 1 as [| c pre Hc Hpre IH]; simpl.
  - by destruct (resolve cands r).
  - rewrite Hc, IH. reflexivity.
Qed.

Lemma resolve_present cands r tried raw :
  resolve cands r = (tried, Some raw) →
  ∃ pre c post,
    cands = pre ++ c :: post ∧ tried = pre ++ [c]
    ∧ Forall (λ c', lookup_source r c' = None) pre
    ∧ lookup_source r c = Some raw.
Proof.
  revert tried. induction cands as [| c cands IH]; intros tried; simpl.
  - intros [= _ ?].
  - destruct (lookup_source r c) as [raw' |] eqn:Hc.
    + intros [= <- ->]. exists [], c, cands. repeat split; auto.
    + destruct (resolve cands r) as [tried' res] eqn:Hres.
      intros [= <- ->].
      destruct (IH tried' eq_refl) as (pre & c' & post & -> & -> & Hpre & Hc').
      exists (c :: pre), c', post. repeat split; auto.
Qed.

Lemma resolve_absent cands r tried :
  resolve cands r = (tried, None) →
  tried = cands ∧ Forall (λ c, lookup_source r c = None) cands.
Proof.
  revert tried. induction cands as [| c cands IH]; intros tried; simpl.
  - intros [= <-]. auto.
  - destruct (lookup_source r c) as [raw |] eqn:Hc; [intros [=] |].
    destruct (resolve cands r) as [tried' res] eqn:Hres.
    intros [= <- ->]. destruct (IH tried' eq_refl) as [-> Hall]. auto.
Qed.

(** C5. The resolver consults the candidates in declared order and stops
    at the first that yields a value.
    - If the candidates before [c] are all absent from the request and [c]
      yields [raw], the result is [raw], and the candidates consulted are
      those before [c] and [c]: none of the later ones, whatever they are.
    - Conversely a candidate supplies the value only if every candidate
      declared before it is absent, and the resolver reports absence only
      after it has consulted every candidate and found each absent.
    - A query parameter present with the empty string yields that empty
      string: it is a value like any other, and wins. *)
Theorem first_present_source_wins cands r :
  (∀ pre c post raw,
     cands = pre ++ c :: post →
     Forall (λ c', lookup_source r c' = None) pre →
     lookup_source r c = Some raw →
     resolve cands r = (pre ++ [c], Some raw))
  ∧ (∀ tried res,
       resolve cands r = (tried, res) →
       match res with
       | Some raw =>
           ∃ pre c post,
             cands = pre ++ c :: post ∧ tried = pre ++ [c]
             ∧ Forall (λ c', lookup_source r c' = None) pre
             ∧ lookup_source r c = Some raw
       | None =>
           tried = cands ∧ Forall (λ c', lookup_source r c' = None) cands
       end)
  ∧ (∀ key later,
       Query r !! key = Some [""] →
       resolve ((QueryParam, key) :: later) r
       = ([(QueryParam, key)], Some [""])).
Proof.
  split; [| split].
  - intros pre c post raw -> Hpre Hc.
    rewrite (resolve_skips_absent _ _ _ Hpre). simpl. by rewrite Hc.
  - intros tried [raw |] Hres.
    + by apply resolve_present.
    + by apply resolve_absent.
  - intros key later Hkey. simpl. unfold lookup_source; simpl.
    by rewrite Hkey.
Qed.
End Resolver.

Section Engine.
Context `{Program}.

(** Induction on field types, with the hypothesis for every field of a
    nested struct. *)
Lemma FieldType_nested_ind (P : FieldType → Prop) :
  P TInt → P TString → P TStrings →
  (∀ sub, Forall (λ f, P (ftype f)) sub → P (TPtr sub)) →
  ∀ ty, P ty.
Proof.
  intros HInt HString HStrings HPtr.
  fix IH 1. intros [| | | sub]; [assumption | assumption | assumption |].
  apply HPtr. revert sub.
  fix IHsub 1. intros [| f sub].
  - apply List.Forall_nil.
  - apply List.Forall_cons; [apply IH | apply IHsub].
Qed.

(** The violations [check] reports for a rule are the ways the rule
    breaks. *)
Lemma check_plain ru p v q ru' :
  (∀ ru0, ru ≠ Each ru0) →
  check ru p v = (if holds ru v then [] else [(p, ru)]) →
  (q, ru') ∈ check ru p v ↔ ∃ q', q = p ++ q' ∧ breaks ru v q' ru'.
Proof.
  intros Hplain ->. destruct (holds ru v) eqn:Hh.
  - split; [intros Hin; by apply elem_of_nil in Hin |].
    intros (q' & -> & Hb). inversion Hb; subst; [congruence |].
    by destruct (Hplain ru0).
  - rewrite list_elem_of_singleton. split.
    + intros [= -> ->]. exists []. split; [by rewrite app_nil_r |].
      by apply breaks_here.
    + intros (q' & -> & Hb). inversion Hb; subst; [by rewrite app_nil_r |].
      by destruct (Hplain ru0).
Qed.

Lemma check_breaks ru p v q ru' :
  (q, ru') ∈ check ru p v ↔ ∃ q', q = p ++ q' ∧ breaks ru v q' ru'.
Proof.
  revert p v q.
  induction ru as [| n | n | n | ru IH]; intros p v q;
    try (apply check_plain; [congruence | reflexivity]).
  assert (Hnot : ∀ q', breaks (Each ru) v q' ru' →
            ∃ l i x q0, v = VStrings l ∧ q' = AtIndex i :: q0
                        ∧ l !! i = Some x ∧ breaks ru (VString x) q0 ru').
  { intros q' Hb. inversion Hb as [ru0 v0 Hne | ]; subst.
    - by destruct (Hne ru).
    - eauto 10. }
  destruct v as [z | s | l | pt]; cbn [check];
    try (split; [intros Hin; by apply elem_of_nil in Hin |];
         intros (q' & _ & Hb);
         by destruct (Hnot q' Hb) as (? & ? & ? & ? & [=] & _)).
  rewrite list_elem_of_join. split.
  - intros (vs & Hin & Hvs).
    apply elem_of_lookup_imap in Hvs as (i & x & -> & Hix).
    apply IH in Hin as (q' & -> & Hb).
    exists (AtIndex i :: q'). split.
    + by rewrite <- app_assoc.
    + by eapply breaks_element.
  - intros (q' & -> & Hb).
    destruct (Hnot q' Hb) as (l' & i & x & q0 & [= <-] & -> & Hix & Hb').
    eexists. split; [| by eapply elem_of_lookup_imap_2].
    apply IH. eexists. split; [| eassumption].
    by rewrite <- app_assoc.
Qed.

(** The violations the engine reports inside a nested struct are those of
    the specification. *)
Lemma validate_at_violated ty p v q ru :
  (q, ru) ∈ validate_at ty p v
  ↔ ∃ sub inst q', ty = TPtr sub ∧ v = VPtr (Some inst)
                   ∧ q = p ++ q' ∧ violated sub inst q' ru.
Proof.
  revert p v q.
  induction ty as [| | | sub IH] using FieldType_nested_ind; intros p v q;
    try (cbn [validate_at]; split; [intros Hin; by apply elem_of_nil in Hin |];
         by intros (? & ? & ? & [=] & _)).
  destruct v as [z | s | l | [inst |]];
    try (cbn [validate_at]; split;
         [intros Hin; by apply elem_of_nil in Hin |];
         by intros (? & ? & ? & _ & [=] & _)).
  cbn [validate_at]. rewrite list_elem_of_bind. split.
  - intros (f & Hin & Hf). apply elem_of_app in Hin as [Hin | Hin].
    + apply list_elem_of_bind in Hin as (ru0 & Hin & Hru0).
      apply check_breaks in Hin as (q' & -> & Hb).
      exists sub, inst, (AtField (fname f) :: q').
      repeat split; [by rewrite <- app_assoc |].
      by eapply violated_field.
    + rewrite Forall_forall in IH.
      apply (IH f Hf) in Hin as (sub' & inst' & q' & Hty & Hv & -> & Hviol).
      exists sub, inst, (AtField (fname f) :: q').
      repeat split; [by rewrite <- app_assoc |].
      by eapply violated_nested.
  - intros (sub' & inst' & q' & [= <-] & [= <-] & -> & Hviol).
    inversion Hviol as [sh i f ru0 q0 ru1 Hf Hru0 Hb
                       | sh i f sub2 inst2 q0 ru1 Hf Hty Hv Hnested]; subst.
    + exists f. split; [| done]. apply elem_of_app. left.
      apply list_elem_of_bind. exists ru0. split; [| done].
      apply check_breaks. eexists. split; [| eassumption].
      by rewrite <- app_assoc.
    + exists f. split; [| done]. apply elem_of_app. right.
      rewrite Forall_forall in IH. apply (IH f Hf).
      exists sub2, inst2, q0. repeat split; auto.
      by rewrite <- app_assoc.
Qed.

(** The engine reports a violation exactly where the instance violates a
    declared rule. *)
Lemma validate_violated sh inst q ru :
  (q, ru) ∈ validate sh inst ↔ violated sh inst q ru.
Proof.
  unfold validate. rewrite validate_at_violated. split.
  - by intros (sub & inst' & q' & [= <-] & [= <-] & -> & Hviol).
  - intros Hviol. by exists sh, inst, q.
Qed.
End Engine.

Section ValidationError.
Context `{Program} `{!Host}.

(** The modelled binder returns what [httpin] documents: a pointer to a new
    instance of the type its core was built for. *)
Lemma spec_Decode_pointer (T : string) core r input :
  New T = inl core → Decode core r = inl input →
  ∃ inst, input = pointer T (Some inst).
Proof.
  simpl. unfold spec_New, spec_Decode. intros Hnew Hdec.
  destruct (types !! T) as [sh |]; [| discriminate].
  destruct (check_shape sh); [discriminate |].
  injection Hnew as <-. simpl in Hdec.
  destruct (assemble sh r) as [inst | e]; [| discriminate].
  injection Hdec as <-. eauto.
Qed.

(** What the modelled binder and engine return on failure are a Binding
    Error and a Validation Error. *)
Lemma convert_binding_error fld ty raw e :
  convert fld ty raw = inr e → is_binding_error e = true.
Proof.
  unfold convert. destruct ty, raw; try destruct (parse_int _);
    by intros [= <-].
Qed.

Lemma assemble_field_binding_error f r e :
  assemble_field f r = inr e → is_binding_error e = true.
Proof.
  unfold assemble_field. destruct (binds_body f).
  - destruct (ftype f) as [| | | sub]; try by intros [= <-].
    destruct (json_Unmarshal _ sub); by intros [= <-].
  - destruct (resolve _ r).2; [apply convert_binding_error |].
    destruct (default_literal _); [apply convert_binding_error |].
    destruct (required _); by intros [= <-].
Qed.

Lemma assemble_binding_error sh r e :
  assemble sh r = inr e → is_binding_error e = true.
Proof.
  induction sh as [| f sh IH]; simpl; [discriminate |].
  destruct (assemble_field f r) as [v | e'] eqn:Hf.
  - destruct (assemble sh r); [discriminate |].
    intros [= <-]. by apply IH.
  - intros [= <-]. by eapply assemble_field_binding_error.
Qed.

Lemma spec_Struct_validation_error (T : string) sh inst v e :
  types !! T = Some sh →
  Struct v (pointer T (Some inst)) = Some e → is_validation_error e = true.
Proof.
  intros Hsh.
  change (spec_Struct v (pointer T (Some inst)) = Some e
          → is_validation_error e = true).
  unfold spec_Struct. rewrite Hsh.
  destruct (validate sh inst); [discriminate | by intros [= <-]].
Qed.

(** A declaration with an unrecognized source kind is rejected when the
    metadata of its shape is built. *)
Lemma check_field_rejects (f : FieldDecl) word key :
  (Unrecognized word, key) ∈ candidates (fsource f) →
  is_Some (check_field f).
Proof.
  intros Hin. unfold check_field.
  assert (Hf : (Unrecognized word, key)
               ∈ filter (λ c, recognized c.1 = false) (candidates (fsource f)))
    by by apply list_elem_of_filter.
  destruct (filter _ _) as [| [k key'] rest] eqn:Hfilter.
  - by apply elem_of_nil in Hf.
  - assert (Hk : (k, key') ∈ filter (λ c, recognized c.1 = false)
                                (candidates (fsource f)))
      by (rewrite Hfilter; apply list_elem_of_here).
    apply list_elem_of_filter in Hk as [Hk _]. simpl in Hk.
    destruct k; try discriminate. eauto.
Qed.

Lemma spec_New_rejects_unrecognized (T : string) sh f word key :
  types !! T = Some sh →
  f ∈ sh →
  (Unrecognized word, key) ∈ candidates (fsource f) →
  ∃ e, New T = inr e.
Proof.
  intros Hsh Hf Hin. simpl. unfold spec_New. rewrite Hsh.
  assert (Hrej : is_Some (check_shape sh)).
  { clear Hsh. induction sh as [| f' sh IH]; [by apply elem_of_nil in Hf |].
    simpl. apply elem_of_cons in Hf as [<- | Hf].
    - destruct (check_field_rejects f word key Hin) as [e ->]. eauto.
    - destruct (check_field f'); [eauto | by apply IH]. }
  destruct Hrej as [e ->]. eauto.
Qed.

Lemma spec_New_core (T : string) core sh :
  New T = inl core → types !! T = Some sh → core = (T, sh).
Proof.
  simpl. unfold spec_New. intros Hnew Hsh. rewrite Hsh in Hnew.
  destruct (check_shape sh); [discriminate |]. by injection Hnew as <-.
Qed.

(** C4. When the decoded instance violates one or more declared rules, on
    its fields, on the elements of a sequence or inside the bound body, the
    middleware makes one call, to the active error handler, and the
    Validation Error it passes lists the violations of the whole instance:
    a pair of a path and a rule is in the list exactly when the instance
    violates that rule at that path. *)
Theorem validation_error_lists_every_violation
    (T : string) sh opts s0 mw s1 o next w r s inst vd :
  Middleware T opts s0 = (Val mw, s1) →
  types !! T = Some sh →
  apply_options opts {| errorHandler := nil_func |} s0 = (Val o, s0) →
  mu s = Unlocked →
  Decode (T, sh) r = inl (pointer T (Some inst)) →
  defaultValidator (registry s) = Some vd →
  (∃ q ru, violated sh inst q ru) →
  ∃ vs,
    calls (mw next w r s).2
    = calls s ++ [CallErrorHandler (active_handler o (registry s)) w r
                    (ValidationFailed vs)]
    ∧ ∀ q ru, violated sh inst q ru ↔ (q, ru) ∈ vs.
Proof.
  intros Hmw Hsh Hopts Hmu HD Hv (q0 & ru0 & Hviol).
  destruct (Middleware_inv _ _ _ _ _ Hmw) as (core & o2 & Hnew & Hopts2 & Heq & _).
  assert (core = (T, sh)) by by eapply spec_New_core. subst core.
  assert (o2 = o) by congruence. subst o2 mw.
  exists (validate sh inst).
  assert (HS : Struct vd (pointer T (Some inst))
               = Some (ValidationFailed (validate sh inst))).
  { change (spec_Struct vd (pointer T (Some inst))
            = Some (ValidationFailed (validate sh inst))).
    unfold spec_Struct. rewrite Hsh.
    apply validate_violated in Hviol.
    destruct (validate sh inst); [by apply elem_of_nil in Hviol | done]. }
  split.
  - rewrite (serve_fails _ o next w r s _ Hmu
               (validation_error _ s r _ vd _ HD Hv HS)).
    apply call_error_handler_calls.
  - intros q ru. symmetry. apply validate_violated.
Qed.
End ValidationError.

(** * The tests of the package, run on the model *)

Section TestRuns.
Import Tests.
#[local] Existing Instance program.
#[local] Existing Instance host.

Ltac run := reflexivity.

(** ** The tests, end to end *)

(** [TestMiddleware]: the wrapped handler answers. *)
Example test_Middleware :
  (mw <- Middleware "Input" [] ;; mw (Some ok) tt req_john) start
  = (Val tt,
     {| registry := registry start; mu := Unlocked; ext := [(200%Z, "")];
        calls := [CallNext (Some ok) tt
                    (attach req_john (pointer "Input" (Some john)))] |}).
Proof. reflexivity. Qed.

(** [TestMiddleware_BindingError]: status 400 from the default handler. *)
Example test_Middleware_BindingError :
  ext ((mw <- Middleware "Input" [] ;; mw (Some ok) tt req_not_json) start).2
  = [(400%Z, "field Body: malformed body")].
Proof. reflexivity. Qed.

(** [TestMiddleware_ValidationError]: status 400 again. *)
Example test_Middleware_ValidationError :
  ext ((mw <- Middleware "Input" [] ;; mw (Some ok) tt req_jo) start).2
  = [(400%Z, "validation failed")].
Proof. reflexivity. Qed.

(** [TestMiddleware_WithErrorHandler]: status 418 from the override. *)
Example test_Middleware_WithErrorHandler :
  ext ((mw <- Middleware "Input" [WithErrorHandler (func_lit teapot)] ;;
        mw (Some ok) tt req_not_json) start).2
  = [(418%Z, "")].
Proof. reflexivity. Qed.

(** [TestSetErrorHandler]: status 418 from the global handler. *)
Example test_SetErrorHandler :
  ext ((SetErrorHandler (func_lit teapot) ;;
        mw <- Middleware "Input" [] ;;
        mw (Some ok) tt req_not_json) start).2
  = [(418%Z, "")].
Proof. reflexivity. Qed.

(** [TestMiddleware_MultipleQueryParams]: the three tags, in order. *)
Example test_Middleware_MultipleQueryParams :
  Decode ("MultiQueryInput", MultiQueryInput_type) req_tags
  = inl (pointer "MultiQueryInput" (Some [("Tags", VStrings ["a"; "b"; "c"])]))
  ∧ validate MultiQueryInput_type [("Tags", VStrings ["a"; "b"; "c"])] = [].
Proof. split; reflexivity. Qed.

(** A default applies to an absent parameter only: [page] is 1 when the
    query has none and 2 when the query says 2. *)
Example test_default_on_absence :
  field "Page" jo = Some (VInt 1) ∧ field "Page" john = Some (VInt 2)
  ∧ Decode ("Input", Input_type) req_jo = inl (pointer "Input" (Some jo))
  ∧ Decode ("Input", Input_type) req_john = inl (pointer "Input" (Some john)).
Proof. repeat split; reflexivity. Qed.

(** ** The theorems at the tests' inputs *)

(** [TestMiddleware]: the request binds and validates; the wrapped handler
    is called and [Get] returns [ID=42, Page=2, Token=secret,
    Body.Name=John]. *)
Lemma middleware_accept_dispatches_witness :
  let mw := serve ("Input", Input_type) {| errorHandler := nil_func |} in
  let r' := attach req_john (pointer "Input" (Some john)) in
  Middleware "Input" [] start = (Val mw, start)
  ∧ Decode ("Input", Input_type) req_john = inl (pointer "Input" (Some john))
  ∧ mw (Some ok) tt req_john start = ServeHTTP (Some ok) tt r' start
  ∧ calls (mw (Some ok) tt req_john start).2
    = calls start ++ [CallNext (Some ok) tt r']
  ∧ ∀ s', Get "Input" r' s' = (Val john, s').
Proof.
  intros mw r'.
  split; [run |]. split; [run |].
  apply (@middleware_accept_dispatches (@spec_runtime program) (@spec_httpin program)
           (@spec_validator program) host
           "Input" [] start mw start
           ("Input", Input_type) (Some ok) tt req_john start john tt); run.
Defined.

(** [TestMiddleware_BindingError] and [TestMiddleware_ValidationError]: a
    body that is not JSON, then a name that is too short; each time the
    default handler is the one call. *)
Lemma middleware_reject_calls_error_handler_witness :
  let mw := serve ("Input", Input_type) {| errorHandler := nil_func |} in
  let short := ValidationFailed
                 [([AtField "ID"], Gt 0);
                  ([AtField "Body"; AtField "Name"], Min 3)] in
  (fails ("Input", Input_type) start req_not_json (MalformedBody "Body")
   ∧ mw (Some ok) tt req_not_json start
     = call_error_handler http_error_400 tt req_not_json
         (MalformedBody "Body") start
   ∧ calls (mw (Some ok) tt req_not_json start).2
     = calls start
       ++ [CallErrorHandler http_error_400 tt req_not_json
             (MalformedBody "Body")])
  ∧ (fails ("Input", Input_type) start req_jo short
     ∧ mw (Some ok) tt req_jo start
       = call_error_handler http_error_400 tt req_jo short start
     ∧ calls (mw (Some ok) tt req_jo start).2
       = calls start ++ [CallErrorHandler http_error_400 tt req_jo short]).
Proof.
  intros mw short.
  assert (Hbind : fails ("Input", Input_type) start req_not_json
                    (MalformedBody "Body"))
    by (apply binding_error; run).
  assert (Hval : fails ("Input", Input_type) start req_jo short)
    by (eapply validation_error; run).
  split; (split; [assumption |]).
  - apply (@middleware_reject_calls_error_handler (@spec_runtime program) (@spec_httpin program)
           (@spec_validator program) host
             "Input" [] start mw start ("Input", Input_type)
             {| errorHandler := nil_func |} (Some ok) tt req_not_json start
             (MalformedBody "Body")); solve [run | assumption].
  - apply (@middleware_reject_calls_error_handler (@spec_runtime program) (@spec_httpin program)
           (@spec_validator program) host
             "Input" [] start mw start ("Input", Input_type)
             {| errorHandler := nil_func |} (Some ok) tt req_jo start
             short); solve [run | assumption].
Defined.

(** [TestMiddleware_WithErrorHandler] and [TestSetErrorHandler]: an
    override is called whatever the registry holds; without one, the
    handler installed after the middleware was built is called. *)
Lemma error_handler_resolved_per_failure_witness :
  let e := MalformedBody "Body" in
  let overridden := serve ("Input", Input_type)
                      {| errorHandler := func_lit teapot |} in
  let plain := serve ("Input", Input_type) {| errorHandler := nil_func |} in
  Middleware "Input" [WithErrorHandler (func_lit teapot)] start
  = (Val overridden, start)
  ∧ calls ((SetErrorHandler nil_func ;; overridden (Some ok) tt req_not_json)
             start).2
    = calls start ++ [CallErrorHandler (func_lit teapot) tt req_not_json e]
  ∧ Middleware "Input" [] start = (Val plain, start)
  ∧ calls (plain (Some ok) tt req_not_json start).2
    = calls start ++ [CallErrorHandler http_error_400 tt req_not_json e]
  ∧ calls ((SetErrorHandler (func_lit teapot) ;;
            plain (Some ok) tt req_not_json) start).2
    = calls start ++ [CallErrorHandler (func_lit teapot) tt req_not_json e].
Proof.
  intros e overridden plain.
  assert (Hbind : fails ("Input", Input_type) start req_not_json e)
    by (apply binding_error; run).
  split; [run |]. split.
  - refine (proj2 (proj1
      (@error_handler_resolved_per_failure (@spec_runtime program) (@spec_httpin program)
           (@spec_validator program) host
         "Input" [WithErrorHandler (func_lit teapot)] start overridden start
         ("Input", Input_type) {| errorHandler := func_lit teapot |}
         (Some ok) tt req_not_json start e nil_func
         eq_refl eq_refl eq_refl eq_refl Hbind) _)).
    discriminate.
  - split; [run |].
    exact (proj2
      (@error_handler_resolved_per_failure (@spec_runtime program) (@spec_httpin program)
           (@spec_validator program) host
         "Input" [] start plain start
         ("Input", Input_type) {| errorHandler := nil_func |}
         (Some ok) tt req_not_json start e (func_lit teapot)
         eq_refl eq_refl eq_refl eq_refl Hbind) eq_refl).
Defined.

(** [TestMiddleware_ValidationError], in detail: [ID] is 0 and the name has
    two letters, and the error lists both. *)
Lemma validation_error_lists_every_violation_witness :
  let mw := serve ("Input", Input_type) {| errorHandler := nil_func |} in
  violated Input_type jo [AtField "ID"] (Gt 0)
  ∧ violated Input_type jo [AtField "Body"; AtField "Name"] (Min 3)
  ∧ ∃ vs,
      calls (mw (Some ok) tt req_jo start).2
      = calls start
        ++ [CallErrorHandler http_error_400 tt req_jo (ValidationFailed vs)]
      ∧ ∀ q ru, violated Input_type jo q ru ↔ (q, ru) ∈ vs.
Proof.
  intros mw.
  assert (HID : violated Input_type jo [AtField "ID"] (Gt 0)).
  { apply (violated_field Input_type jo
             (mkField "ID" TInt (from [(PathParam, "id")]) [Gt 0]) (Gt 0)).
    - apply list_elem_of_here.
    - apply list_elem_of_here.
    - apply breaks_here; [discriminate | reflexivity]. }
  split; [exact HID |]. split.
  - apply (violated_nested Input_type jo
             (mkField "Body" (TPtr Body_type) (from [(JSONBody, "json")]) [])
             Body_type [("Name", VString "Jo")]).
    + do 3 apply list_elem_of_further. apply list_elem_of_here.
    + reflexivity.
    + reflexivity.
    + apply (violated_field Body_type _
               (mkField "Name" TString (from []) [Required; Min 3]) (Min 3)).
      * apply list_elem_of_here.
      * apply list_elem_of_further, list_elem_of_here.
      * apply breaks_here; [discriminate | reflexivity].
  - apply (@validation_error_lists_every_violation program host
             "Input" Input_type [] start mw start
             {| errorHandler := nil_func |} (Some ok) tt req_jo start jo tt);
      try run.
    exists [AtField "ID"], (Gt 0). exact HID.
Defined.

(** The fallback of the documentation, [query=token;header=X-Token]: an
    empty [token] in the query wins over the header, and the header is
    consulted when the query has no [token]. *)
Lemma first_present_source_wins_witness :
  let cands := [(QueryParam, "token"); (HeaderField, "X-Token")] in
  (Decode ("TokenInput", TokenInput_type) req_empty_token
   = inl (pointer "TokenInput" (Some [("Token", VString "")]))
   ∧ Decode ("TokenInput", TokenInput_type) req_header_token
     = inl (pointer "TokenInput" (Some [("Token", VString "secret")])))
  ∧ resolve cands req_empty_token = ([(QueryParam, "token")], Some [""])
  ∧ resolve cands req_header_token = (cands, Some ["secret"]).
Proof.
  intros cands. split; [split; reflexivity |]. split.
  - apply (proj1 (first_present_source_wins cands req_empty_token)
             [] (QueryParam, "token") [(HeaderField, "X-Token")] [""]).
    + reflexivity.
    + apply Forall_nil_2.
    + reflexivity.
  - apply (proj1 (first_present_source_wins cands req_header_token)
             [(QueryParam, "token")] (HeaderField, "X-Token") [] ["secret"]).
    + reflexivity.
    + apply Forall_cons_2; [reflexivity | apply Forall_nil_2].
    + reflexivity.
Defined.

(** [TestMiddleware_Panic]: [BadInput] declares the source [unknown]. *)
Lemma middleware_panics_at_construction_witness :
  New "BadInput" = inr (UnrecognizedSource "Field" "unknown")
  ∧ Middleware "BadInput" [] start
    = (Panic "valmid: failed to create httpin core: field Field: unrecognized source unknown",
       start).
Proof.
  split; [run |].
  apply (proj2 (proj2 (@middleware_panics_at_construction (@spec_runtime program) (@spec_httpin program)
           (@spec_validator program) host
                  "BadInput" [] start
                  (UnrecognizedSource "Field" "unknown") eq_refl))).
  apply Forall_nil_2.
Defined.

(** [TestGet_NoMiddleware], and a request that went through the pipeline of
    another shape. *)
Lemma Get_zero_without_pipeline_witness :
  Get "Input" req_john start = (Val (zero "Input"), start)
  ∧ Get "MultiQueryInput" (attach req_john (pointer "Input" (Some john))) start
    = (Val (zero "MultiQueryInput"), start).
Proof.
  split.
  - apply (@Get_zero_without_pipeline (@spec_runtime program)
             (@spec_validator program) host).
    left. reflexivity.
  - apply (@Get_zero_without_pipeline (@spec_runtime program)
             (@spec_validator program) host).
    right. exists "Input", (Some john), req_john.
    split; [discriminate | reflexivity].
Defined.

(** Two reads in the handler of [TestMiddleware]. *)
Lemma Get_twice_same_witness :
  let mw := serve ("Input", Input_type) {| errorHandler := nil_func |} in
  ∃ r', calls (mw (Some ok) tt req_john start).2
        = calls start ++ [CallNext (Some ok) tt r']
        ∧ ∀ s', (x <- Get "Input" r' ;; y <- Get "Input" r' ;; ret (x, y)) s'
                = (Val (john, john), s').
Proof.
  intros mw.
  apply (@Get_twice_same (@spec_runtime program) (@spec_httpin program)
           (@spec_validator program) host
           "Input" [] start mw start
           ("Input", Input_type) (Some ok) tt req_john start john tt); run.
Defined.

(** [TestMiddleware_BindingError], seen from the error handler. *)
Lemma failure_attaches_nothing_witness :
  let mw := serve ("Input", Input_type) {| errorHandler := nil_func |} in
  let e := MalformedBody "Body" in
  ∃ h r', calls (mw (Some ok) tt req_not_json start).2
          = calls start ++ [CallErrorHandler h tt r' e]
          ∧ Context r' = Context req_not_json
          ∧ (∀ s', Get "Input" r' s' = Get "Input" req_not_json s')
          ∧ (Value (Context req_not_json) Input = untyped_nil →
             ∀ s', Get "Input" r' s' = (Val (zero "Input"), s')).
Proof.
  intros mw e.
  apply (@failure_attaches_nothing (@spec_runtime program) (@spec_httpin program)
           (@spec_validator program) host
           "Input" [] start mw start ("Input", Input_type)
           {| errorHandler := nil_func |} (Some ok) tt req_not_json start e);
    try run.
  apply binding_error; run.
Defined.
End TestRuns.

(** * More of the package: configuration, construction, edge cases *)

Section Behaviour.
Context `{Runtime} `{!Httpin} `{!Validator} `{!Host}.

Implicit Types (s : State) (r : Request) (w : ResponseWriter)
  (next : Handler) (o : options) (T : rtype).

Lemma apply_options_independent opts o s s' :
  apply_options opts o s' = ((apply_options opts o s).1, s').
Proof.
  revert o. induction opts as [| [f|] opts IH]; intros o; simpl; auto.
Qed.

Lemma apply_options_nil_option opts o s :
  None ∈ opts →
  apply_options opts o s
  = (Panic "runtime error: invalid memory address or nil pointer dereference",
     s).
Proof.
  revert o. induction opts as [| [f|] opts IH]; intros o Hin; simpl.
  - by apply elem_of_nil in Hin.
  - apply IH. by apply elem_of_cons in Hin as [? | ?].
  - reflexivity.
Qed.

(** X1. The validator is read from the registry at each request
    ([getValidator], line 98), not when the middleware is built: after
    [SetValidator v'], a request that binds is judged by [v'], whatever
    validator the registry held before, nil included. *)
Theorem validator_resolved_per_request
    T opts s0 mw s1 core o next w r s input v' :
  Middleware T opts s0 = (Val mw, s1) →
  New T = inl core →
  apply_options opts {| errorHandler := nil_func |} s0 = (Val o, s0) →
  mu s = Unlocked →
  Decode core r = inl input →
  let s' := {| registry := {| defaultErrorHandler :=
                                defaultErrorHandler (registry s);
                              defaultValidator := Some v' |};
               mu := Unlocked; ext := ext s; calls := calls s |} in
  (SetValidator (Some v') ;; mw next w r) s
  = match Struct v' input with
    | Some err =>
        call_error_handler (active_handler o (registry s')) w r err s'
    | None => ServeHTTP next w (attach r input) s'
    end.
Proof.
  intros Hmw Hnew Hopts Hmu HD s'.
  rewrite (Middleware_serve _ _ _ _ _ _ _ Hmw Hnew Hopts).
  unfold bind at 1. rewrite (SetValidator_run s (Some v') Hmu). fold s'.
  unfold serve. rewrite HD. unfold bind.
  rewrite (getValidator_run s' eq_refl). simpl.
  destruct (Struct v' input) as [err |]; [| reflexivity].
  apply handleError_run. by left.
Qed.

(** X2. The options are applied in order (lines 78-80), so the last
    [WithErrorHandler] decides: the options before it change nothing.  A
    last [WithErrorHandler(nil)] therefore undoes every override: the
    middleware is the one built with no option. *)
Theorem last_WithErrorHandler_wins T opts h s :
  Forall (λ opt : Option, opt ≠ None) opts →
  Middleware T (opts ++ [WithErrorHandler h]) s
  = Middleware T [WithErrorHandler h] s
  ∧ Middleware T (opts ++ [WithErrorHandler nil_func]) s = Middleware T [] s.
Proof.
  intros Hall. unfold Middleware, bind.
  rewrite !(apply_options_app_override opts _ _ s Hall). split; reflexivity.
Qed.

(** X3. A nil option is called like the others (line 79), so [Middleware]
    panics with a nil dereference as soon as one option is nil, before
    [httpin.New] is reached: the panic is the same for a well-formed and
    for a malformed shape, and the state is untouched. *)
Theorem nil_option_panics T opts s :
  None ∈ opts →
  Middleware T opts s
  = (Panic "runtime error: invalid memory address or nil pointer dereference",
     s).
Proof.
  intros Hin. unfold Middleware, bind.
  by rewrite (apply_options_nil_option opts _ s Hin).
Qed.

(** X4. [Middleware] reads and writes no package state: run in any two
    states it gives the same result (the same handler, or the same panic)
    and leaves each state as it was.  It takes no lock and captures
    neither the registry's handler nor its validator. *)
Theorem Middleware_reads_no_state T opts s s' :
  Middleware T opts s' = ((Middleware T opts s).1, s').
Proof.
  unfold Middleware, bind.
  rewrite (apply_options_independent opts _ s s').
  destruct (apply_options opts _ s) as [[o | msg | msg] s2]; simpl;
    [| reflexivity | reflexivity].
  destruct (New T); reflexivity.
Qed.

(** X5. [SetErrorHandler(nil)] does not restore the default handler: with
    nil in the registry and no override, [handleError] calls a nil function
    (line 116).  A failing request then panics; the wrapped handler is not
    called, nothing is written, and the lock is free. *)
Theorem nil_registry_handler_panics
    T opts s0 mw s1 core o next w r s err :
  Middleware T opts s0 = (Val mw, s1) →
  New T = inl core →
  apply_options opts {| errorHandler := nil_func |} s0 = (Val o, s0) →
  errorHandler o = nil_func →
  defaultErrorHandler (registry s) = nil_func →
  mu s = Unlocked →
  fails core s r err →
  mw next w r s
  = (Panic "runtime error: invalid memory address or nil pointer dereference",
     {| registry := registry s; mu := Unlocked; ext := ext s;
        calls := calls s ++ [CallErrorHandler nil_func w r err] |}).
Proof.
  intros Hmw Hnew Hopts Ho Hg Hmu Hfail.
  rewrite (Middleware_serve _ _ _ _ _ _ _ Hmw Hnew Hopts).
  rewrite (serve_fails _ _ _ _ _ _ _ Hmu Hfail).
  unfold active_handler. rewrite Ho, Hg.
  unfold call_error_handler, bind, log. simpl. by rewrite Hmu.
Qed.

(** X6. The handler the registry holds at program start (lines 22-24)
    answers a failing request with [http.Error(w, err.Error(), 400)] and
    does nothing else: the handler returns, the registry is unchanged and
    the lock is free. *)
Theorem default_handler_answers_400
    T opts s0 mw s1 core o next w r s err :
  Middleware T opts s0 = (Val mw, s1) →
  New T = inl core →
  apply_options opts {| errorHandler := nil_func |} s0 = (Val o, s0) →
  errorHandler o = nil_func →
  defaultErrorHandler (registry s) = http_error_400 →
  mu s = Unlocked →
  fails core s r err →
  mw next w r s
  = (Val tt,
     {| registry := registry s; mu := Unlocked;
        ext := http_Error w (Error err) StatusBadRequest (ext s);
        calls := calls s ++ [CallErrorHandler http_error_400 w r err] |}).
Proof.
  intros Hmw Hnew Hopts Ho Hg Hmu Hfail.
  rewrite (Middleware_serve _ _ _ _ _ _ _ Hmw Hnew Hopts).
  rewrite (serve_fails _ _ _ _ _ _ _ Hmu Hfail).
  unfold active_handler. rewrite Ho, Hg.
  unfold call_error_handler, bind, log, run_user. simpl. by rewrite Hmu.
Qed.
End Behaviour.

Section Composition.
Context `{Runtime} `{!Httpin} `{!Validator} `{!Host}.

Implicit Types (s : State) (r : Request) (w : ResponseWriter)
  (next : Handler) (o : options) (T : rtype).

(** X7. Every pipeline attaches its instance under the one key
    [httpin.Input] (line 105), so pipelines nest by shadowing.  When a
    request that already carries an instance of [T] passes the pipeline of
    [S], the wrapped handler receives a request on which [Get[S]] returns
    the instance of [S], and [Get[T]] returns the zero value of [T] if [T]
    is another shape: the outer instance is out of reach. *)
Theorem inner_pipeline_shadows_outer
    T S opts s0 mw s1 core next w r s vT vS vd :
  Middleware S opts s0 = (Val mw, s1) →
  New S = inl core →
  mu s = Unlocked →
  let r1 := attach r (pointer T (Some vT)) in
  Decode core r1 = inl (pointer S (Some vS)) →
  defaultValidator (registry s) = Some vd →
  Struct vd (pointer S (Some vS)) = None →
  let r2 := attach r1 (pointer S (Some vS)) in
  mw next w r1 s = ServeHTTP next w r2 s
  ∧ (∀ s', Get T r1 s' = (Val vT, s'))
  ∧ (∀ s', Get S r2 s' = (Val vS, s'))
  ∧ (S ≠ T → ∀ s', Get T r2 s' = (Val (zero T), s')).
Proof.
  intros Hmw Hnew Hmu r1 HD Hv HS r2.
  destruct (Middleware_inv _ _ _ _ _ Hmw) as (core2 & o & Hnew2 & _ & Heq & _).
  assert (core2 = core) by congruence. subst core2 mw.
  split; [| split; [| split]].
  - apply serve_passes; [done |]. by eapply passes_intro.
  - intros s'. apply Get_attached.
  - intros s'. apply Get_attached.
  - intros Hne s'. by apply Get_other_shape.
Qed.


(** X9. [Get] looks at the value under [httpin.Input] only (line 122): a
    context value stored later under any other key does not change what
    [Get] returns, be it the instance, the zero value or a panic. *)
Theorem Get_ignores_other_keys T r k x s :
  k ≠ Input →
  Get T (WithContext r (WithValue (Context r) k x)) s = Get T r s.
Proof.
  intros Hk. unfold Get, WithContext, Context, WithValue. simpl.
  case_decide; [congruence | reflexivity].
Qed.

(** X10. The getters release the lock before they return (lines 46-47 and
    52-53), so no lock is held while user code runs or after: whatever a
    request comes to (the wrapped handler, an error handler, a panic),
    [mu] is free when the middleware's handler is left. *)
Theorem lock_free_after_request T opts s0 mw s1 next w r s :
  Middleware T opts s0 = (Val mw, s1) →
  mu s = Unlocked →
  mu (mw next w r s).2 = Unlocked.
Proof.
  intros Hmw Hmu.
  destruct (Middleware_inv _ _ _ _ _ Hmw) as (core & o & _ & _ & -> & _).
  unfold serve.
  destruct (Decode core r) as [input | err].
  - unfold bind. rewrite (getValidator_run s Hmu).
    destruct (defaultValidator (registry s)) as [v |]; simpl; [| exact Hmu].
    destruct (Struct v input) as [err |].
    + rewrite handleError_run by auto. by rewrite call_error_handler_mu.
    + by rewrite ServeHTTP_mu.
  - rewrite handleError_run by auto. by rewrite call_error_handler_mu.
Qed.

(** X11. The two setters write one variable each under the same lock
    (lines 31-43): a second [SetErrorHandler] or [SetValidator] replaces the
    first, and a [SetErrorHandler] and a [SetValidator] give the same state
    in either order. *)
Theorem setters_compose h1 h2 v1 v2 s :
  mu s = Unlocked →
  (SetErrorHandler h1 ;; SetErrorHandler h2) s = SetErrorHandler h2 s
  ∧ (SetValidator v1 ;; SetValidator v2) s = SetValidator v2 s
  ∧ (SetErrorHandler h1 ;; SetValidator v1) s
    = (SetValidator v1 ;; SetErrorHandler h1) s.
Proof.
  intros Hmu. destruct s as [g m e c]; simpl in Hmu; subst m.
  repeat split.
Qed.

(** X12. What the setters write is what the getters read (lines 31-55):
    after [SetErrorHandler h] and [SetValidator v], [getErrorHandler]
    returns [h] and [getValidator] returns [v]; the lock is free again and
    nothing else has changed. *)
Theorem registry_set_then_get h v s :
  mu s = Unlocked →
  (SetErrorHandler h ;; SetValidator v ;;
   x <- getErrorHandler ;; y <- getValidator ;; ret (x, y)) s
  = (Val (h, v),
     {| registry := {| defaultErrorHandler := h; defaultValidator := v |};
        mu := Unlocked; ext := ext s; calls := calls s |}).
Proof.
  intros Hmu. destruct s as [g m e c]; simpl in Hmu; subst m.
  reflexivity.
Qed.

(** X13. A binding error is handled before the validator is fetched (lines
    91-95), and an override is called without a look at the registry (lines
    112-115).  So with an override, what the middleware does on a binding
    error is the call of the override, in every state: whatever the
    registry holds, a nil validator included, and whoever holds the lock. *)
Theorem binding_error_with_override_needs_no_registry
    T opts s0 mw s1 core o next w r s err :
  Middleware T opts s0 = (Val mw, s1) →
  New T = inl core →
  apply_options opts {| errorHandler := nil_func |} s0 = (Val o, s0) →
  errorHandler o ≠ nil_func →
  Decode core r = inr err →
  mw next w r s = call_error_handler (errorHandler o) w r err s.
Proof.
  intros Hmw Hnew Hopts Ho HD.
  rewrite (Middleware_serve _ _ _ _ _ _ _ Hmw Hnew Hopts).
  unfold serve. rewrite HD. rewrite handleError_run by auto.
  unfold active_handler. by destruct (errorHandler o).
Qed.

(** X14. A request leads to at most one call into user code (lines 89-107):
    whatever the request, the registry and the options, the log of calls
    after the middleware's handler is the log before it, followed by at most
    one entry. *)
Theorem at_most_one_call_per_request T opts s0 mw s1 next w r s :
  Middleware T opts s0 = (Val mw, s1) →
  mu s = Unlocked →
  ∃ cs, calls (mw next w r s).2 = calls s ++ cs ∧ (List.length cs ≤ 1)%nat.
Proof.
  intros Hmw Hmu.
  destruct (Middleware_inv _ _ _ _ _ Hmw) as (core & o & _ & _ & -> & _).
  unfold serve.
  destruct (Decode core r) as [input | err].
  - unfold bind. rewrite (getValidator_run s Hmu).
    destruct (defaultValidator (registry s)) as [v |]; simpl.
    + destruct (Struct v input) as [err |].
      * rewrite handleError_run by auto. rewrite call_error_handler_calls.
        eexists. split; [reflexivity | simpl; lia].
      * rewrite ServeHTTP_calls. eexists. split; [reflexivity | simpl; lia].
    + exists []. split; [by rewrite app_nil_r | simpl; lia].
  - rewrite handleError_run by auto. rewrite call_error_handler_calls.
    eexists. split; [reflexivity | simpl; lia].
Qed.
End Composition.

(** * The further properties at the tests' inputs *)

Section MoreTestRuns.
Import Tests.
#[local] Existing Instance program.
#[local] Existing Instance host.

Abbreviation RT := (@spec_runtime program).
Abbreviation HI := (@spec_httpin program).
Abbreviation VA := (@spec_validator program).
Abbreviation override := (@WithErrorHandler RT VA host).

(** A registry whose validator was set to nil, then [SetValidator] with the
    validator of the tests: the short name is rejected by that one. *)
Lemma validator_resolved_per_request_witness :
  let mw := serve ("Input", Input_type) {| errorHandler := nil_func |} in
  let s := (SetValidator None start).2 in
  let short := ValidationFailed
                 [([AtField "ID"], Gt 0);
                  ([AtField "Body"; AtField "Name"], Min 3)] in
  defaultValidator (registry s) = None
  ∧ (SetValidator (Some tt) ;; mw (Some ok) tt req_jo) s
    = call_error_handler http_error_400 tt req_jo short start.
Proof.
  intros mw s short. split; [reflexivity |].
  exact (@validator_resolved_per_request RT HI VA host
           "Input" [] start mw start ("Input", Input_type)
           {| errorHandler := nil_func |} (Some ok) tt req_jo s
           (pointer "Input" (Some jo)) tt
           eq_refl eq_refl eq_refl eq_refl eq_refl).
Defined.

Lemma last_WithErrorHandler_wins_witness :
  Middleware "Input"
    [WithErrorHandler (func_lit teapot); WithErrorHandler http_error_400] start
  = Middleware "Input" [WithErrorHandler http_error_400] start
  ∧ Middleware "Input"
      [WithErrorHandler (func_lit teapot); WithErrorHandler nil_func] start
    = Middleware "Input" [] start.
Proof.
  apply (@last_WithErrorHandler_wins RT HI VA host
           "Input" [override (func_lit teapot)] http_error_400 start).
  apply Forall_cons_2; [discriminate | apply Forall_nil_2].
Defined.

Lemma nil_option_panics_witness :
  Middleware "BadInput" [WithErrorHandler (func_lit teapot); None] start
  = (Panic "runtime error: invalid memory address or nil pointer dereference",
     start)
  ∧ Middleware "Input" [None] start
    = (Panic "runtime error: invalid memory address or nil pointer dereference",
       start).
Proof.
  split.
  - apply (@nil_option_panics RT HI VA host).
    apply list_elem_of_further, list_elem_of_here.
  - apply (@nil_option_panics RT HI VA host). apply list_elem_of_here.
Defined.

Lemma nil_registry_handler_panics_witness :
  let mw := serve ("Input", Input_type) {| errorHandler := nil_func |} in
  let s := (SetErrorHandler nil_func start).2 in
  mw (Some ok) tt req_not_json s
  = (Panic "runtime error: invalid memory address or nil pointer dereference",
     {| registry := registry s; mu := Unlocked; ext := ext s;
        calls := calls s ++ [CallErrorHandler nil_func tt req_not_json
                               (MalformedBody "Body")] |}).
Proof.
  intros mw s.
  apply (@nil_registry_handler_panics RT HI VA host
           "Input" [] start mw start ("Input", Input_type)
           {| errorHandler := nil_func |} (Some ok) tt req_not_json s
           (MalformedBody "Body")); try reflexivity.
  apply binding_error; reflexivity.
Defined.

Lemma default_handler_answers_400_witness :
  let mw := serve ("Input", Input_type) {| errorHandler := nil_func |} in
  mw (Some ok) tt req_not_json start
  = (Val tt,
     {| registry := registry start; mu := Unlocked;
        ext := [(400%Z, "field Body: malformed body")];
        calls := [CallErrorHandler http_error_400 tt req_not_json
                    (MalformedBody "Body")] |}).
Proof.
  intros mw.
  apply (@default_handler_answers_400 RT HI VA host
           "Input" [] start mw start ("Input", Input_type)
           {| errorHandler := nil_func |} (Some ok) tt req_not_json start
           (MalformedBody "Body")); try reflexivity.
  apply binding_error; reflexivity.
Defined.

(** The pipeline of [TokenInput] inside the pipeline of [Input]. *)
Lemma inner_pipeline_shadows_outer_witness :
  let mw := serve ("TokenInput", TokenInput_type)
              {| errorHandler := nil_func |} in
  let token := [("Token", VString "secret")] in
  let r1 := attach req_john (pointer "Input" (Some john)) in
  let r2 := attach r1 (pointer "TokenInput" (Some token)) in
  mw (Some ok) tt r1 start = ServeHTTP (Some ok) tt r2 start
  ∧ (∀ s', Get "Input" r1 s' = (Val john, s'))
  ∧ (∀ s', Get "TokenInput" r2 s' = (Val token, s'))
  ∧ (∀ s', Get "Input" r2 s' = (Val (zero "Input"), s')).
Proof.
  intros mw token r1 r2.
  destruct (@inner_pipeline_shadows_outer RT HI VA host
              "Input" "TokenInput" [] start mw start
              ("TokenInput", TokenInput_type) (Some ok) tt req_john start
              john token tt eq_refl eq_refl eq_refl eq_refl eq_refl eq_refl)
    as (Hrun & H1 & H2 & H3).
  split; [exact Hrun |]. split; [exact H1 |]. split; [exact H2 |].
  apply H3. discriminate.
Defined.


Lemma Get_ignores_other_keys_witness :
  let r := attach req_john (pointer "Input" (Some john)) in
  Get "Input"
    (WithContext r (WithValue (Context r) (ForeignKey "user") (foreign 7)))
    start
  = Get "Input" r start.
Proof.
  intros r.
  apply (@Get_ignores_other_keys RT VA host). discriminate.
Defined.

Lemma lock_free_after_request_witness :
  let mw := serve ("Input", Input_type) {| errorHandler := nil_func |} in
  mu (mw (Some ok) tt req_jo start).2 = Unlocked
  ∧ mu (mw None tt req_john start).2 = Unlocked.
Proof.
  intros mw. split.
  - exact (@lock_free_after_request RT HI VA host
             "Input" [] start mw start (Some ok) tt req_jo start
             eq_refl eq_refl).
  - exact (@lock_free_after_request RT HI VA host
             "Input" [] start mw start None tt req_john start
             eq_refl eq_refl).
Defined.

Lemma setters_compose_witness :
  (SetErrorHandler nil_func ;; SetErrorHandler (func_lit teapot)) start
  = SetErrorHandler (func_lit teapot) start
  ∧ (SetValidator None ;; SetValidator (Some tt)) start
    = SetValidator (Some tt) start
  ∧ (SetErrorHandler nil_func ;; SetValidator None) start
    = (SetValidator None ;; SetErrorHandler nil_func) start.
Proof.
  exact (@setters_compose RT VA host nil_func (func_lit teapot)
           None (Some tt) start eq_refl).
Defined.

Lemma registry_set_then_get_witness :
  (SetErrorHandler (func_lit teapot) ;; SetValidator None ;;
   x <- getErrorHandler ;; y <- getValidator ;; ret (x, y)) start
  = (Val (func_lit teapot, None),
     {| registry := {| defaultErrorHandler := func_lit teapot;
                       defaultValidator := None |};
        mu := Unlocked; ext := ext start; calls := calls start |}).
Proof.
  exact (@registry_set_then_get RT VA host (func_lit teapot) None start
           eq_refl).
Defined.

(** A writer holds the lock and the validator is nil: the override is
    called all the same. *)
Lemma binding_error_with_override_needs_no_registry_witness :
  let mw := serve ("Input", Input_type)
              {| errorHandler := func_lit teapot |} in
  let s := {| registry := {| defaultErrorHandler := nil_func;
                             defaultValidator := None |};
              mu := WLocked; ext := []; calls := [] |} in
  mw (Some ok) tt req_not_json s
  = (Val tt,
     {| registry := registry s; mu := WLocked; ext := [(418%Z, "")];
        calls := [CallErrorHandler (func_lit teapot) tt req_not_json
                    (MalformedBody "Body")] |}).
Proof.
  intros mw s.
  refine (eq_trans
    (@binding_error_with_override_needs_no_registry RT HI VA host
       "Input" [override (func_lit teapot)] start mw start
       ("Input", Input_type) {| errorHandler := func_lit teapot |}
       (Some ok) tt req_not_json s (MalformedBody "Body")
       eq_refl eq_refl eq_refl _ eq_refl) eq_refl).
  discriminate.
Defined.

Lemma at_most_one_call_per_request_witness :
  let mw := serve ("Input", Input_type) {| errorHandler := nil_func |} in
  ∃ cs, calls (mw (Some ok) tt req_john start).2 = calls start ++ cs
        ∧ (List.length cs ≤ 1)%nat.
Proof.
  intros mw.
  exact (@at_most_one_call_per_request RT HI VA host
           "Input" [] start mw start (Some ok) tt req_john start
           eq_refl eq_refl).
Defined.
End MoreTestRuns.
